(** * Progress tracking utilities: a shallow embedding of [progress.py]

    The module under study reads two artefacts from disk (a regression
    summary and a feature list) and prints a status block.  The Python
    fragment it relies on is written out first (exceptions, [str]
    operations, the values produced by [json.load], binary64 floats and the
    [.1f] format), then the four functions of the module, then the
    properties. *)

From Stdlib Require Import ZArith List String Ascii Bool Lia DecimalString.
From Stdlib Require Import SpecFloat.
From Stdlib Require Import Permutation.
Import ListNotations.

Local Open Scope string_scope.
Local Open Scope Z_scope.

(** ** Exceptions and the error monad *)

Module Py.

(** The exception classes that can reach the handlers of the module.  An
    exception value is represented by its class. *)
Inductive exc : Type :=
| BaseException | KeyboardInterrupt | Exception
| OSError | FileNotFoundError | PermissionError | IsADirectoryError
| ValueError | UnicodeError | UnicodeDecodeError | JSONDecodeError
| TypeError | AttributeError
| ArithmeticError | ZeroDivisionError | OverflowError
| RuntimeError | RecursionError | MemoryError.

(** [IOError] is an alias of [OSError] since Python 3.3. *)
Definition IOError : exc := OSError.

Definition exc_eq_dec (a b : exc) : {a = b} + {a <> b}.
Proof. decide equality. Defined.

(** Direct base class. *)
Definition base (c : exc) : option exc :=
  match c with
  | BaseException => None
  | KeyboardInterrupt => Some BaseException
  | Exception => Some BaseException
  | OSError => Some Exception
  | FileNotFoundError => Some OSError
  | PermissionError => Some OSError
  | IsADirectoryError => Some OSError
  | ValueError => Some Exception
  | UnicodeError => Some ValueError
  | UnicodeDecodeError => Some UnicodeError
  | JSONDecodeError => Some ValueError
  | TypeError => Some Exception
  | AttributeError => Some Exception
  | ArithmeticError => Some Exception
  | ZeroDivisionError => Some ArithmeticError
  | OverflowError => Some ArithmeticError
  | RuntimeError => Some Exception
  | RecursionError => Some RuntimeError
  | MemoryError => Some Exception
  end.

(** Method resolution order, by walking [base]; the hierarchy above has
    depth five. *)
Fixpoint mro_fuel (fuel : nat) (c : exc) : list exc :=
  match fuel with
  | O => [c]
  | S k => c :: match base c with Some b => mro_fuel k b | None => [] end
  end.

Definition mro (c : exc) : list exc := mro_fuel 5 c.

Definition issubclass (c d : exc) : bool :=
  existsb (fun a => if exc_eq_dec a d then true else false) (mro c).

Inductive result (A : Type) : Type :=
| Ok (a : A)
| Raise (e : exc).
Arguments Ok {A} a.
Arguments Raise {A} e.

Definition bind {A B : Type} (c : result A) (k : A -> result B) : result B :=
  match c with
  | Ok a => k a
  | Raise e => Raise e
  end.

(** The two shapes of [except] clause in the module: a bare [except:] and
    [except (C1, ..., Cn):]. *)
Inductive except_clause : Type :=
| ExceptAll
| ExceptClasses (cs : list exc).

Definition catches (h : except_clause) (e : exc) : bool :=
  match h with
  | ExceptAll => true
  | ExceptClasses cs => existsb (issubclass e) cs
  end.

Definition try_except {A : Type}
  (body : result A) (h : except_clause) (handler : result A) : result A :=
  match body with
  | Ok a => Ok a
  | Raise e => if catches h e then handler else Raise e
  end.

(** ** [str] operations

    Text is a [string]; [lower] acts on the letters [A]-[Z] and leaves every
    other character as it is (the case mapping of characters outside ASCII
    is not modelled). *)

Definition is_upper (c : ascii) : bool :=
  let n := nat_of_ascii c in (65 <=? n)%nat && (n <=? 90)%nat.

Definition is_lower (c : ascii) : bool :=
  let n := nat_of_ascii c in (97 <=? n)%nat && (n <=? 122)%nat.

Definition lower_char (c : ascii) : ascii :=
  if is_upper c then ascii_of_nat (nat_of_ascii c + 32) else c.

Definition upper_char (c : ascii) : ascii :=
  if is_lower c then ascii_of_nat (nat_of_ascii c - 32) else c.

Fixpoint lower (s : string) : string :=
  match s with
  | EmptyString => EmptyString
  | String c s' => String (lower_char c) (lower s')
  end.

Fixpoint startswith (s sub : string) {struct sub} : bool :=
  match sub, s with
  | EmptyString, _ => true
  | String _ _, EmptyString => false
  | String a sub', String b s' => Ascii.eqb a b && startswith s' sub'
  end.

(** [sub in s] *)
Fixpoint str_in (sub s : string) : bool :=
  startswith s sub ||
  match s with
  | EmptyString => false
  | String _ s' => str_in sub s'
  end.

(** [c * n] for a one-character string. *)
Fixpoint str_repeat (c : ascii) (n : nat) : string :=
  match n with
  | O => EmptyString
  | S k => String c (str_repeat c k)
  end.

Definition nl : string := String (ascii_of_nat 10) EmptyString.

(** [str(n)] for an [int]; the interpreter's limit on the number of digits
    of such a conversion is not modelled. *)
Definition str_of_int (n : Z) : string := NilZero.string_of_int (Z.to_int n).

(** ** Paths: [pathlib.PurePath] reduced to an anchor and its parts *)

Record path : Type := Path { anchor : string; parts : list string }.

Definition parent (p : path) : path :=
  Path (anchor p) (removelast (parts p)).

Definition joinpath (p : path) (name : string) : path :=
  Path (anchor p) (parts p ++ [name]).

End Py.

Export Py.

Declare Scope py_scope.
Delimit Scope py_scope with py.
Notation "x <- c ;; k" := (bind c (fun x => k))
  (at level 61, c at next level, right associativity) : py_scope.
Notation "p // name" := (joinpath p name) (at level 40, left associativity) : py_scope.
Local Open Scope py_scope.

(** ** Values produced by [json.load] *)

Module Json.

(** [None], [bool], [int], [float], [str], [list] and [dict].  A [dict] is
    kept as the pairs of the parsed object in document order; on a repeated
    key the last pair is the one the dictionary holds. *)
#[warnings="-register-all"]
Inductive value : Type :=
| JNone
| JBool (b : bool)
| JInt (n : Z)
| JFloat (x : spec_float)
| JStr (s : string)
| JList (xs : list value)
| JDict (kvs : list (string * value)).

(** Truth value of an object ([bool(v)]). *)
Definition truthy (v : value) : bool :=
  match v with
  | JNone => false
  | JBool b => b
  | JInt n => negb (n =? 0)
  | JFloat (S754_zero _) => false
  | JFloat _ => true
  | JStr s => negb (String.eqb s EmptyString)
  | JList xs => match xs with [] => false | _ :: _ => true end
  | JDict kvs => match kvs with [] => false | _ :: _ => true end
  end.

(** The value a dictionary built from [kvs] holds at [k]. *)
Fixpoint dict_lookup (k : string) (kvs : list (string * value)) : option value :=
  match kvs with
  | [] => None
  | (k', v) :: rest =>
      match dict_lookup k rest with
      | Some v' => Some v'
      | None => if String.eqb k' k then Some v else None
      end
  end.

(** Keys of the dictionary, each once, in order of first insertion. *)
Fixpoint dict_keys_from (seen : list string) (kvs : list (string * value)) : list string :=
  match kvs with
  | [] => []
  | (k, _) :: rest =>
      if existsb (String.eqb k) seen then dict_keys_from seen rest
      else k :: dict_keys_from (k :: seen) rest
  end.

Definition dict_keys (kvs : list (string * value)) : list string :=
  dict_keys_from [] kvs.

Fixpoint str_chars (s : string) : list string :=
  match s with
  | EmptyString => []
  | String c s' => String c EmptyString :: str_chars s'
  end.

(** [len(v)]: defined on [list], [dict] and [str], [TypeError] otherwise. *)
Definition py_len (v : value) : result Z :=
  match v with
  | JList xs => Ok (Z.of_nat (List.length xs))
  | JDict kvs => Ok (Z.of_nat (List.length (dict_keys kvs)))
  | JStr s => Ok (Z.of_nat (String.length s))
  | _ => Raise TypeError
  end.

(** The items [for test in v] goes through: the elements of a [list], the
    keys of a [dict], the characters of a [str]. *)
Definition py_iter (v : value) : result (list value) :=
  match v with
  | JList xs => Ok xs
  | JDict kvs => Ok (map JStr (dict_keys kvs))
  | JStr s => Ok (map JStr (str_chars s))
  | _ => Raise TypeError
  end.

(** [v.get(key, default)]: only a [dict] has the method. *)
Definition py_get (v : value) (key : string) (default : value) : result value :=
  match v with
  | JDict kvs =>
      Ok (match dict_lookup key kvs with Some x => x | None => default end)
  | _ => Raise AttributeError
  end.

(** [sum(1 for x in items if cond(x))], accumulating from [acc]; the
    generator is consumed left to right and stops at the first exception. *)
Fixpoint sum_ones_if (cond : value -> result bool) (items : list value) (acc : Z)
  : result Z :=
  match items with
  | [] => Ok acc
  | x :: rest =>
      bind (cond x) (fun b => sum_ones_if cond rest (if b then acc + 1 else acc))
  end.

End Json.

Export Json.

(** ** Binary64 arithmetic and the [.Nf] format *)

Module Float.

Definition prec : Z := 53.
Definition emax : Z := 1024.

(** An [int] as the operand of an exact quotient: mantissa [|n|], exponent 0. *)
Definition of_int (n : Z) : spec_float :=
  match n with
  | Z0 => S754_zero false
  | Zpos p => S754_finite false p 0
  | Zneg p => S754_finite true p 0
  end.

(** [float(n)] of a literal. *)
Definition float_of_int (n : Z) : spec_float := binary_normalize prec emax n 0 false.

(** [a / b] on two [int]s: the quotient of the integers rounded once, to
    nearest even. *)
Definition int_truediv (a b : Z) : result spec_float :=
  if b =? 0 then Raise ZeroDivisionError
  else match SFdiv prec emax (of_int a) (of_int b) with
       | S754_infinity _ => Raise OverflowError
       | q => Ok q
       end.

Definition mul (x y : spec_float) : spec_float := SFmul prec emax x y.

(** [n / d] rounded to an integer, ties to even ([0 <= n], [0 < d]). *)
Definition round_half_even (n d : Z) : Z :=
  let q := n / d in
  let r := n mod d in
  match 2 * r ?= d with
  | Lt => q
  | Gt => q + 1
  | Eq => if Z.even q then q else q + 1
  end.

(** [m * 2^e * 10^k] rounded to an integer, ties to even. *)
Definition scaled (k : nat) (m : positive) (e : Z) : Z :=
  if 0 <=? e then Zpos m * 2 ^ e * 10 ^ Z.of_nat k
  else round_half_even (Zpos m * 10 ^ Z.of_nat k) (2 ^ (- e)).

(** The [k] low decimal digits of [n], zero padded. *)
Fixpoint frac_digits (k : nat) (n : Z) : string :=
  match k with
  | O => EmptyString
  | S j => frac_digits j (n / 10) ++ str_of_int (n mod 10)
  end.

Definition fixed (k : nat) (neg : bool) (t : Z) : string :=
  (if neg then "-" else EmptyString) ++
  str_of_int (t / 10 ^ Z.of_nat k) ++
  match k with
  | O => EmptyString
  | S _ => "." ++ frac_digits k (t mod 10 ^ Z.of_nat k)
  end.

(** [format(x, ".kf")]: the decimal with [k] fractional digits nearest to
    the value of [x], ties to even. *)
Definition format_f (k : nat) (x : spec_float) : string :=
  match x with
  | S754_nan => "nan"
  | S754_infinity false => "inf"
  | S754_infinity true => "-inf"
  | S754_zero s => fixed k s 0
  | S754_finite s m e => fixed k s (scaled k m e)
  end.

End Float.

(** ** Standard output and the filesystem *)

Module IO.

(** A computation that may print and may raise: what was printed before an
    exception stays printed. *)
Definition io (A : Type) : Type := string -> result A * string.

Definition io_ret {A : Type} (a : A) : io A := fun out => (Ok a, out).

Definition io_bind {A B : Type} (c : io A) (k : A -> io B) : io B :=
  fun out =>
    match c out with
    | (Ok a, out') => k a out'
    | (Raise e, out') => (Raise e, out')
    end.

Definition lift {A : Type} (r : result A) : io A := fun out => (r, out).

(** [print(s)]: the text and a newline are appended to the output; the
    encoding of the stream is not modelled. *)
Definition print (s : string) : io unit := fun out => (Ok tt, out ++ s ++ nl).

(** An open text file. *)
Inductive text_file : Type := TextFile (p : path).

(** What the library calls of the module answer in a given state of the
    disk.  The answers are independent of each other: a file can be reported
    present and then fail to open.  [Path.exists] is taken at its interface,
    an answer that is [True] or [False]. *)
Record world : Type := World {
  path_exists : path -> bool;
  path_read_text : path -> result string;
  open_text : path -> result text_file;
  json_load : text_file -> result value
}.

End IO.

Export IO.

Notation "x <~ c ;; k" := (io_bind c (fun x => k))
  (at level 61, c at next level, right associativity) : py_scope.
Notation "c ;;; k" := (io_bind c (fun _ => k))
  (at level 61, right associativity) : py_scope.

(** ** The module [progress.py] *)

Module Progress.

Definition passing_status : string := "✅ Regression tests passing".
Definition failed_status : string := "❌ Regression tests failed".
Definition issues_status : string := "⚠️ Regression tests completed with issues".
Definition read_error_status : string := "⚠️ Could not read regression results".
Definition not_run_status : string := "⏳ No regression tests run yet".

Definition get_regression_status (w : world) (project_dir : path) : result string :=
  let regression_dir := parent project_dir // "tests" // "regression" // "results" in
  let summary_file := regression_dir // "summary.txt" in
  if path_exists w summary_file then
    try_except
      (content <- path_read_text w summary_file ;;
       if str_in "All tests completed successfully" content then
         Ok passing_status
       else if str_in "failed" (lower content) then
         Ok failed_status
       else
         Ok issues_status)
      ExceptAll
      (Ok read_error_status)
  else
    Ok not_run_status.

Definition count_passing_tests (w : world) (project_dir : path) : result (Z * Z) :=
  let tests_file := project_dir // "feature_list.json" in
  if negb (path_exists w tests_file) then
    Ok (0, 0)
  else
    try_except
      (f <- open_text w tests_file ;;
       tests <- json_load w f ;;
       total <- py_len tests ;;
       items <- py_iter tests ;;
       passing <-
         sum_ones_if
           (fun test => v <- py_get test "passes" (JBool false) ;; Ok (truthy v))
           items 0 ;;
       Ok (passing, total))
      (ExceptClasses [JSONDecodeError; IOError])
      (Ok (0, 0)).

Definition rule : string := str_repeat "=" 70.

Definition print_session_header (session_num : Z) (is_initializer : bool) : io unit :=
  let session_type := if is_initializer then "INITIALIZER" else "CODING AGENT" in
  print (nl ++ rule) ;;;
  print ("  SESSION " ++ str_of_int session_num ++ ": " ++ session_type) ;;;
  print rule ;;;
  print EmptyString.

Definition print_progress_summary (w : world) (project_dir : path) : io unit :=
  pt <~ lift (count_passing_tests w project_dir) ;;
  let '(passing, total) := pt in
  regression_status <~ lift (get_regression_status w project_dir) ;;
  (if total >? 0 then
     q <~ lift (Float.int_truediv passing total) ;;
     let percentage := Float.mul q (Float.float_of_int 100) in
     print (nl ++ "Progress: " ++ str_of_int passing ++ "/" ++ str_of_int total ++
            " tests passing (" ++ Float.format_f 1 percentage ++ "%)")
   else
     print (nl ++ "Progress: feature_list.json not yet created")) ;;;
  print ("Regression Status: " ++ regression_status).

End Progress.

Export Progress.

(** Concrete states of the disk used in the examples. *)

Definition proj : path := Path "/" ["work"; "app"].
Definition summary_path : path := Path "/" ["work"; "tests"; "regression"; "results"; "summary.txt"].
Definition feature_path : path := Path "/" ["work"; "app"; "feature_list.json"].

Definition path_eqb (p q : path) : bool :=
  String.eqb (anchor p) (anchor q) &&
  (if list_eq_dec string_dec (parts p) (parts q) then true else false).

(** Neither artefact exists. *)
Definition empty_world : world :=
  World (fun _ => false)
        (fun _ => Raise FileNotFoundError)
        (fun _ => Raise FileNotFoundError)
        (fun _ => Raise OSError).

(** A summary with the given text and no feature list. *)
Definition world_with_summary (text : string) : world :=
  World (fun p => path_eqb p summary_path)
        (fun p => if path_eqb p summary_path then Ok text else Raise FileNotFoundError)
        (fun _ => Raise FileNotFoundError)
        (fun _ => Raise OSError).

(** A summary whose read fails with [e]. *)
Definition world_with_bad_summary (e : exc) : world :=
  World (fun p => path_eqb p summary_path)
        (fun _ => Raise e)
        (fun _ => Raise FileNotFoundError)
        (fun _ => Raise OSError).

(** A feature list that parses to [v] and no summary. *)
Definition world_with_features (v : value) : world :=
  World (fun p => path_eqb p feature_path)
        (fun _ => Raise FileNotFoundError)
        (fun p => if path_eqb p feature_path then Ok (TextFile p) else Raise FileNotFoundError)
        (fun _ => Ok v).

(** A feature list on which [json.load] fails with [e]. *)
Definition world_with_bad_features (e : exc) : world :=
  World (fun p => path_eqb p feature_path)
        (fun _ => Raise FileNotFoundError)
        (fun p => if path_eqb p feature_path then Ok (TextFile p) else Raise FileNotFoundError)
        (fun _ => Raise e).

(** The feature list of the scenario:
    [[{"passes": true}, {"passes": false}, {}]]. *)
Definition scenario_features : value :=
  JList [JDict [("passes", JBool true)]; JDict [("passes", JBool false)]; JDict []].

(** ** Vocabulary of the specification *)

(** [sub] occurs in [s]. *)
Definition contains (sub s : string) : Prop :=
  exists pre post, s = pre ++ sub ++ post.

(** [s] is the lower-case pattern [pat] with any of its letters in upper
    case. *)
Inductive casing_of : string -> string -> Prop :=
| casing_nil : casing_of EmptyString EmptyString
| casing_same c pat s : casing_of pat s -> casing_of (String c pat) (String c s)
| casing_upper c pat s :
    casing_of pat s -> casing_of (String c pat) (String (upper_char c) s).

(** [s] consists of lower-case letters. *)
Fixpoint all_lower (s : string) : bool :=
  match s with
  | EmptyString => true
  | String c s' => is_lower c && all_lower s'
  end.

(** [pat] occurs in [s] in some letter casing. *)
Definition contains_any_casing (pat s : string) : Prop :=
  exists pre mid post, s = pre ++ mid ++ post /\ casing_of pat mid.

(** The two files the module reads, for a project directory. *)
Definition summary_file (project_dir : path) : path :=
  parent project_dir // "tests" // "regression" // "results" // "summary.txt".

Definition tests_file (project_dir : path) : path :=
  project_dir // "feature_list.json".

(** A feature record passes when its [passes] field is present and truthy. *)
Definition entry_passes (kvs : list (string * value)) : bool :=
  match dict_lookup "passes" kvs with
  | Some v => truthy v
  | None => false
  end.

(** The condition of the generator in [count_passing_tests]. *)
Definition passes_cond (test : value) : result bool :=
  v <- py_get test "passes" (JBool false) ;; Ok (truthy v).

(** [n] spaces. *)
Definition spaces (n : nat) : string := str_repeat " " n.

(** [line] shows [text] centred in a field of [width] characters: the
    padding on the left is half of the free room, give or take the odd
    character, and the padding on the right either fills the field or is
    left out. *)
Definition centered_in (width : nat) (text line : string) : Prop :=
  exists l r : nat,
    line = spaces l ++ text ++ spaces r /\
    (r = 0 \/ l + String.length text + r = width)%nat /\
    (width <= 2 * l + String.length text + 1 /\
     2 * l + String.length text <= width + 1)%nat.

Definition session_label (session_num : Z) (is_initializer : bool) : string :=
  "SESSION " ++ str_of_int session_num ++ ": " ++
  (if is_initializer then "INITIALIZER" else "CODING AGENT").

(** The banner as the specification words it: two rules of 70 characters
    around a centred label. *)
Definition centered_banner (session_num : Z) (is_initializer : bool) : Prop :=
  exists line,
    print_session_header session_num is_initializer EmptyString
    = (Ok tt, nl ++ rule ++ nl ++ line ++ nl ++ rule ++ nl ++ nl) /\
    centered_in 70 (session_label session_num is_initializer) line.

(** Rounding in [SpecFloat], read on exact quotients.  [loc_of r d] is the
    position of [r / d] in the unit interval, for a remainder [0 <= r < d]. *)
Definition loc_of (r d : Z) : location :=
  if r =? 0 then loc_Exact else loc_Inexact (2 * r ?= d).

(** The record [mrs] holds the integer part of [N / D] and the position of
    its fractional part. *)
Definition represents (N D : Z) (mrs : shr_record) : Prop :=
  0 < D /\ 0 <= N /\
  shr_m mrs = N / D /\ loc_of_shr_record mrs = loc_of (N mod D) D.

(** [binary_round_aux] on the quotient [N / D] scaled by [2^ex], in
    arithmetic on integers: a shift to the working exponent, one rounding to
    nearest even, and a second shift when the rounding carried. *)
Definition round_model (prec emax : Z) (sx : bool) (N D ex : Z) : spec_float :=
  let e1 := Z.max ex (fexp prec emax (Zdigits2 (N / D) + ex)) in
  let m1 := Float.round_half_even N (D * 2 ^ (e1 - ex)) in
  let e2 := Z.max e1 (fexp prec emax (Zdigits2 m1 + e1)) in
  match m1 / 2 ^ (e2 - e1) with
  | Z0 => S754_zero sx
  | Zpos m => if e2 <=? emax - prec then S754_finite sx m e2 else S754_infinity sx
  | Zneg _ => S754_nan
  end.

(** The number of bits by which the dividend is shifted before the
    division. *)
Definition div_shift (p t : Z) : Z :=
  - Z.min (fexp Float.prec Float.emax (Zdigits2 p - Zdigits2 t)) 0.

(** A feature list with [passing] passing records followed by [failing]
    failing ones. *)
Definition features_of (passing failing : nat) : value :=
  JList (repeat (JDict [("passes", JBool true)]) passing ++
         repeat (JDict [("passes", JBool false)]) failing).

(** [T] tenths, written with one fractional digit. *)
Definition decimal_1 (T : Z) : string :=
  str_of_int (T / 10) ++ "." ++ str_of_int (T mod 10).

(** [n / d] rounded to an integer, ties upwards. *)
Definition round_half_up (n d : Z) : Z := (2 * n + d) / (2 * d).

(** The percentage as the specification words it, [100 * passing / total]
    formatted to one decimal place: the expression evaluated as written,
    product first, in the [.1f] format. *)
Definition formula_percentage (passing total : Z) : result string :=
  q <- Float.int_truediv (100 * passing) total ;; Ok (Float.format_f 1 q).

(** The readings of that wording: the expression as written, or the exact
    quotient rounded to one decimal with ties to even or ties upwards. *)
Definition percentage_as_specified (passing total : Z) (pct : string) : Prop :=
  formula_percentage passing total = Ok pct \/
  pct = decimal_1 (Float.round_half_even (1000 * passing) total) \/
  pct = decimal_1 (round_half_up (1000 * passing) total).

(** The summary as the specification words it, for a count with
    [total > 0]. *)
Definition summary_as_specified (w : world) (project_dir : path) : Prop :=
  forall passing total,
    count_passing_tests w project_dir = Ok (passing, total) ->
    0 < total ->
    exists pct status,
      percentage_as_specified passing total pct /\
      print_progress_summary w project_dir EmptyString =
        (Ok tt,
         nl ++ "Progress: " ++ str_of_int passing ++ "/" ++ str_of_int total ++
         " tests passing (" ++ pct ++ "%)" ++ nl ++
         "Regression Status: " ++ status ++ nl).

(** The lines of the progress summary. *)
Definition progress_line (passing total : Z) (percentage : string) : string :=
  nl ++ "Progress: " ++ str_of_int passing ++ "/" ++ str_of_int total ++
  " tests passing (" ++ percentage ++ "%)".

Definition not_created_line : string :=
  nl ++ "Progress: feature_list.json not yet created".

Definition status_line (status : string) : string :=
  "Regression Status: " ++ status.

Definition the_statuses : list string :=
  [passing_status; failed_status; issues_status; not_run_status; read_error_status].

(** [v] is a mapping. *)
Definition is_record (v : value) : bool :=
  match v with
  | JDict _ => true
  | _ => false
  end.

(** [v] is a mapping whose [passes] field is present and truthy. *)
Definition passes_value (v : value) : bool :=
  match v with
  | JDict kvs => entry_passes kvs
  | _ => false
  end.

(** In [w] the feature list of [project_dir] exists, opens and parses to
    [v]. *)
Definition loads (w : world) (project_dir : path) (v : value) : Prop :=
  path_exists w (tests_file project_dir) = true /\
  exists f, open_text w (tests_file project_dir) = Ok f /\ json_load w f = Ok v.

(** ** Facts about [str] operations *)

Section StrFacts.

Lemma startswith_app (sub post : string) : startswith (sub ++ post) sub = true.
Proof.
  induction sub as [|a sub IH]; simpl; [reflexivity|].
  now rewrite Ascii.eqb_refl.
Qed.

Lemma startswith_inv (s sub : string) :
  startswith s sub = true -> exists post, s = sub ++ post.
Proof.
  revert s; induction sub as [|a sub IH]; intros s H.
  - now exists s.
  - destruct s as [|b s]; simpl in H; [discriminate|].
    apply andb_true_iff in H as [Hc Hs].
    apply Ascii.eqb_eq in Hc; subst b.
    destruct (IH _ Hs) as [post ->].
    now exists post.
Qed.

Lemma str_in_startswith (sub s : string) : startswith s sub = true -> str_in sub s = true.
Proof. destruct s; simpl; intros ->; reflexivity. Qed.

Lemma str_in_intro (sub pre post : string) : str_in sub (pre ++ sub ++ post) = true.
Proof.
  induction pre as [|c pre IH]; simpl.
  - apply str_in_startswith, startswith_app.
  - rewrite IH; apply orb_true_r.
Qed.

Lemma str_in_inv (sub s : string) : str_in sub s = true -> contains sub s.
Proof.
  induction s as [|c s IH]; simpl; intros H.
  - rewrite orb_false_r in H.
    destruct (startswith_inv _ _ H) as [post E].
    exists EmptyString, post; exact E.
  - apply orb_true_iff in H as [H|H].
    + destruct (startswith_inv _ _ H) as [post E].
      exists EmptyString, post; exact E.
    + destruct (IH H) as (pre & post & ->).
      exists (String c pre), post; reflexivity.
Qed.

(** [in] decides occurrence. *)
Lemma str_in_spec (sub s : string) : str_in sub s = true <-> contains sub s.
Proof.
  split; [apply str_in_inv|].
  intros (pre & post & ->); apply str_in_intro.
Qed.

Lemma str_in_false (sub s : string) : str_in sub s = false <-> ~ contains sub s.
Proof.
  rewrite <- str_in_spec; destruct (str_in sub s); split; congruence.
Qed.

Lemma lower_app (a b : string) : lower (a ++ b) = lower a ++ lower b.
Proof. induction a as [|c a IH]; simpl; [reflexivity | now rewrite IH]. Qed.

Lemma lower_split (s a b : string) :
  lower s = a ++ b -> exists a' b', s = a' ++ b' /\ lower a' = a /\ lower b' = b.
Proof.
  revert s; induction a as [|c a IH]; intros s H.
  - exists EmptyString, s; auto.
  - destruct s as [|d s]; simpl in H; [discriminate|].
    injection H as Hc Hs.
    destruct (IH _ Hs) as (a' & b' & -> & <- & <-).
    exists (String d a'), b'; simpl; rewrite Hc; auto.
Qed.

(** A character whose lower case is the lower-case letter [c] is [c] or its
    upper case. *)
Lemma lower_char_inv (c d : ascii) :
  is_lower c = true -> lower_char d = c -> d = c \/ d = upper_char c.
Proof.
  destruct d as [[] [] [] [] [] [] [] []];
    intros Hc <-; vm_compute in Hc |- *; try discriminate Hc; auto.
Qed.

Lemma lower_char_upper (c : ascii) : is_lower c = true -> lower_char (upper_char c) = c.
Proof.
  destruct c as [[] [] [] [] [] [] [] []]; vm_compute; congruence.
Qed.

Lemma lower_char_lower (c : ascii) : is_lower c = true -> lower_char c = c.
Proof.
  destruct c as [[] [] [] [] [] [] [] []]; vm_compute; congruence.
Qed.

(** For a pattern of lower-case letters, the strings that [lower] sends to
    the pattern are its casings. *)
Lemma lower_eq_casing (pat s : string) :
  all_lower pat = true -> (lower s = pat <-> casing_of pat s).
Proof.
  revert s; induction pat as [|c pat IH]; intros s Hp; split; intros H.
  - destruct s; [constructor | discriminate].
  - inversion H; reflexivity.
  - simpl in Hp; apply andb_true_iff in Hp as [Hc Hp].
    destruct s as [|d s]; simpl in H; [discriminate|].
    injection H as Hd Hs.
    apply (IH s Hp) in Hs.
    destruct (lower_char_inv c d Hc Hd) as [-> | ->]; now constructor.
  - simpl in Hp; apply andb_true_iff in Hp as [Hc Hp].
    inversion H as [| c' p' s' Hs | c' p' s' Hs]; subst; simpl;
      apply (IH _ Hp) in Hs; rewrite Hs;
      [rewrite lower_char_lower | rewrite lower_char_upper]; auto.
Qed.

(** The test of the source, ["failed" in content.lower()], against the
    wording of the specification. *)
Lemma in_lower_spec (pat content : string) :
  all_lower pat = true ->
  (str_in pat (lower content) = true <-> contains_any_casing pat content).
Proof.
  intros Hp; rewrite str_in_spec; split.
  - intros (pre & post & E).
    destruct (lower_split _ _ _ E) as (pre' & rest & -> & _ & E2).
    destruct (lower_split _ _ _ E2) as (mid & post' & -> & Hm & _).
    exists pre', mid, post'; split; [reflexivity|].
    now apply lower_eq_casing.
  - intros (pre & mid & post & -> & Hm).
    apply (lower_eq_casing _ _ Hp) in Hm.
    exists (lower pre), (lower post).
    now rewrite !lower_app, Hm.
Qed.

End StrFacts.

(** ** Regression status *)

Section RegressionStatus.

Variable w : world.
Variable project_dir : path.

(** The function reads the file named by [summary_file]. *)
Lemma get_regression_status_unfold :
  get_regression_status w project_dir =
  if path_exists w (summary_file project_dir) then
    try_except
      (content <- path_read_text w (summary_file project_dir) ;;
       if str_in "All tests completed successfully" content then Ok passing_status
       else if str_in "failed" (lower content) then Ok failed_status
       else Ok issues_status)
      ExceptAll (Ok read_error_status)
  else Ok not_run_status.
Proof. reflexivity. Qed.

Lemma status_of_content (content : string) :
  path_exists w (summary_file project_dir) = true ->
  path_read_text w (summary_file project_dir) = Ok content ->
  get_regression_status w project_dir =
  Ok (if str_in "All tests completed successfully" content then passing_status
      else if str_in "failed" (lower content) then failed_status
      else issues_status).
Proof.
  intros He Hr; rewrite get_regression_status_unfold, He, Hr; simpl.
  destruct (str_in _ content); [reflexivity|].
  destruct (str_in _ (lower content)); reflexivity.
Qed.

Lemma status_absent :
  path_exists w (summary_file project_dir) = false ->
  get_regression_status w project_dir = Ok not_run_status.
Proof. intros He; now rewrite get_regression_status_unfold, He. Qed.

Lemma status_unreadable (e : exc) :
  path_exists w (summary_file project_dir) = true ->
  path_read_text w (summary_file project_dir) = Raise e ->
  get_regression_status w project_dir = Ok read_error_status.
Proof. intros He Hr; now rewrite get_regression_status_unfold, He, Hr. Qed.

End RegressionStatus.

(** C1.  For an existing, readable summary the content is classified in
    priority order: the phrase "All tests completed successfully" gives the
    Passing marker whatever else the content holds; otherwise "failed" in any
    letter casing gives the Failed marker; otherwise the result is the
    CompletedWithIssues marker. *)
Theorem C1_classification_priority (w : world) (project_dir : path) (content : string) :
  path_exists w (summary_file project_dir) = true ->
  path_read_text w (summary_file project_dir) = Ok content ->
  (contains "All tests completed successfully" content ->
   get_regression_status w project_dir = Ok passing_status) /\
  (~ contains "All tests completed successfully" content ->
   contains_any_casing "failed" content ->
   get_regression_status w project_dir = Ok failed_status) /\
  (~ contains "All tests completed successfully" content ->
   ~ contains_any_casing "failed" content ->
   get_regression_status w project_dir = Ok issues_status).
Proof.
  intros He Hr; rewrite (status_of_content w project_dir content He Hr).
  repeat split.
  - intros Hs; apply str_in_spec in Hs; now rewrite Hs.
  - intros Hs Hf; apply str_in_false in Hs; rewrite Hs.
    apply (in_lower_spec "failed" content eq_refl) in Hf; now rewrite Hf.
  - intros Hs Hf; apply str_in_false in Hs; rewrite Hs.
    destruct (str_in "failed" (lower content)) eqn:E; [|reflexivity].
    apply (in_lower_spec "failed" content eq_refl) in E; contradiction.
Qed.

(** A summary that mentions both phrases is reported as passing. *)
Lemma C1_witness :
  get_regression_status
    (world_with_summary "All tests completed successfully. 0 failed.") proj
  = Ok passing_status.
Proof.
  apply (C1_classification_priority
           (world_with_summary "All tests completed successfully. 0 failed.") proj
           "All tests completed successfully. 0 failed.");
    [reflexivity | reflexivity |].
  exists EmptyString, ". 0 failed."; reflexivity.
Defined.



Lemma get_regression_status_total (w : world) (project_dir : path) :
  exists s, get_regression_status w project_dir = Ok s /\ In s the_statuses.
Proof.
  rewrite get_regression_status_unfold.
  destruct (path_exists w (summary_file project_dir)).
  - destruct (path_read_text w (summary_file project_dir)) as [content|e]; simpl.
    + destruct (str_in _ content);
        [|destruct (str_in _ (lower content))];
        eexists; (split; [reflexivity|]); simpl; auto.
    + eexists; split; [reflexivity|]; simpl; auto 6.
  - eexists; split; [reflexivity|]; simpl; auto 6.
Qed.


(** ** Feature counting *)

(** A branch where the body raised: the handler either gives [(0, 0)] or the
    exception leaves the function. *)
Ltac handler_case :=
  cbn [bind try_except];
  match goal with
  | |- (if ?c then _ else _) = _ -> _ =>
      let H := fresh in
      destruct c; intros H; [injection H as <- <-; lia | discriminate H]
  end.

Section FeatureCount.

Lemma passes_cond_dict (kvs : list (string * value)) :
  passes_cond (JDict kvs) = Ok (entry_passes kvs).
Proof.
  unfold passes_cond, entry_passes; simpl.
  destruct (dict_lookup "passes" kvs); reflexivity.
Qed.

(** On records the generator sum is the number of passing records. *)
Lemma sum_ones_if_records (entries : list (list (string * value))) (acc : Z) :
  sum_ones_if passes_cond (map JDict entries) acc
  = Ok (acc + Z.of_nat (List.length (filter entry_passes entries))).
Proof.
  revert acc; induction entries as [|kvs entries IH]; intros acc.
  - simpl; f_equal; lia.
  - cbn [map sum_ones_if]; rewrite passes_cond_dict; cbn [bind].
    rewrite IH; cbn [filter]; destruct (entry_passes kvs);
      cbn [List.length]; f_equal; lia.
Qed.

(** Whatever the condition, a sum that completes lies between the start
    value and the start value plus the number of items. *)
Lemma sum_ones_if_bounds (cond : value -> result bool) (items : list value) :
  forall acc r, sum_ones_if cond items acc = Ok r ->
  acc <= r <= acc + Z.of_nat (List.length items).
Proof.
  induction items as [|x items IH]; intros acc r H; simpl in H.
  - injection H as <-; simpl; lia.
  - destruct (cond x) as [b|e]; simpl in H; [|discriminate].
    apply IH in H; simpl List.length; destruct b; lia.
Qed.

(** The first item that is not a record stops the sum with [AttributeError]. *)
Lemma sum_ones_if_not_record (x : value) (rest : list value) (acc : Z) :
  (forall kvs, x <> JDict kvs) ->
  sum_ones_if passes_cond (x :: rest) acc = Raise AttributeError.
Proof.
  intros Hx; simpl; unfold passes_cond.
  destruct x; try reflexivity.
  now destruct (Hx kvs).
Qed.

Lemma str_chars_length (s : string) : List.length (str_chars s) = String.length s.
Proof. induction s as [|c s IH]; simpl; congruence. Qed.

(** [len] counts what the iteration goes through. *)
Lemma py_len_iter (v : value) (n : Z) (items : list value) :
  py_len v = Ok n -> py_iter v = Ok items -> n = Z.of_nat (List.length items).
Proof.
  destruct v; simpl; try discriminate; intros Hn Hi;
    injection Hn as <-; injection Hi as <-;
    now rewrite ?length_map, ?str_chars_length.
Qed.

Variable w : world.
Variable project_dir : path.

Lemma count_passing_tests_unfold :
  count_passing_tests w project_dir =
  if negb (path_exists w (tests_file project_dir)) then Ok (0, 0)
  else
    try_except
      (f <- open_text w (tests_file project_dir) ;;
       tests <- json_load w f ;;
       total <- py_len tests ;;
       items <- py_iter tests ;;
       passing <- sum_ones_if passes_cond items 0 ;;
       Ok (passing, total))
      (ExceptClasses [JSONDecodeError; IOError])
      (Ok (0, 0)).
Proof. reflexivity. Qed.

Lemma count_absent :
  path_exists w (tests_file project_dir) = false ->
  count_passing_tests w project_dir = Ok (0, 0).
Proof. intros He; now rewrite count_passing_tests_unfold, He. Qed.

(** The result once the file has been opened and parsed. *)
Lemma count_loaded (f : text_file) (tests : value) :
  path_exists w (tests_file project_dir) = true ->
  open_text w (tests_file project_dir) = Ok f ->
  json_load w f = Ok tests ->
  count_passing_tests w project_dir =
  try_except
    (total <- py_len tests ;;
     items <- py_iter tests ;;
     passing <- sum_ones_if passes_cond items 0 ;;
     Ok (passing, total))
    (ExceptClasses [JSONDecodeError; IOError])
    (Ok (0, 0)).
Proof.
  intros He Ho Hl; now rewrite count_passing_tests_unfold, He, Ho; simpl; rewrite Hl.
Qed.

(** The count on a list of records. *)
Lemma count_records (f : text_file) (entries : list (list (string * value))) :
  path_exists w (tests_file project_dir) = true ->
  open_text w (tests_file project_dir) = Ok f ->
  json_load w f = Ok (JList (map JDict entries)) ->
  count_passing_tests w project_dir =
  Ok (Z.of_nat (List.length (filter entry_passes entries)),
      Z.of_nat (List.length entries)).
Proof.
  intros He Ho Hl; rewrite (count_loaded f _ He Ho Hl); simpl.
  now rewrite sum_ones_if_records, length_map.
Qed.

(** The exceptions of the two library calls that the handler names are
    turned into [(0, 0)]. *)
Lemma count_swallows_named (e : exc) :
  path_exists w (tests_file project_dir) = true ->
  issubclass e JSONDecodeError = true \/ issubclass e OSError = true ->
  open_text w (tests_file project_dir) = Raise e \/
  (exists f, open_text w (tests_file project_dir) = Ok f /\ json_load w f = Raise e) ->
  count_passing_tests w project_dir = Ok (0, 0).
Proof.
  intros He Hc H; rewrite count_passing_tests_unfold, He; simpl negb; cbv iota.
  assert (Hcatch : catches (ExceptClasses [JSONDecodeError; IOError]) e = true).
  { simpl; unfold IOError; destruct Hc as [-> | ->]; auto using orb_true_r. }
  destruct H as [-> | (f & -> & Hl)]; cbn [bind try_except];
    [|rewrite Hl; cbn [bind try_except]]; now rewrite Hcatch.
Qed.

(** A list whose first entry is not a record makes the function raise
    [AttributeError]: the handler does not name it. *)
Lemma count_first_not_record (f : text_file) (x : value) (rest : list value) :
  path_exists w (tests_file project_dir) = true ->
  open_text w (tests_file project_dir) = Ok f ->
  json_load w f = Ok (JList (x :: rest)) ->
  (forall kvs, x <> JDict kvs) ->
  count_passing_tests w project_dir = Raise AttributeError.
Proof.
  intros He Ho Hl Hx; rewrite (count_loaded f _ He Ho Hl).
  cbn [py_len py_iter bind].
  now rewrite (sum_ones_if_not_record x rest 0 Hx).
Qed.

(** A result, when there is one, has [0 <= passing <= total]. *)
Lemma count_bounds (passing total : Z) :
  count_passing_tests w project_dir = Ok (passing, total) ->
  0 <= passing <= total.
Proof.
  rewrite count_passing_tests_unfold.
  destruct (path_exists w (tests_file project_dir)); simpl negb; cbv iota;
    [|intros H; injection H as <- <-; lia].
  destruct (open_text w (tests_file project_dir)) as [f|e];
    [|handler_case].
  cbn [bind]; destruct (json_load w f) as [tests|e]; [|handler_case].
  cbn [bind]; destruct (py_len tests) as [n|e] eqn:Hn; [|handler_case].
  cbn [bind]; destruct (py_iter tests) as [items|e] eqn:Hi; [|handler_case].
  cbn [bind]; destruct (sum_ones_if passes_cond items 0) as [r|e] eqn:Hs;
    [|handler_case].
  cbn [bind try_except]; intros H; injection H as <- <-.
  apply sum_ones_if_bounds in Hs.
  rewrite (py_len_iter _ _ _ Hn Hi); lia.
Qed.

End FeatureCount.

(** C2.  The code at an input the claim covers: a feature list that is
    well-formed JSON with an entry that is not a mapping, [[1]].  The call
    [test.get] raises [AttributeError], which [except (json.JSONDecodeError,
    IOError)] does not name, so the exception leaves the function; the same
    holds for a top-level value without a length and for a decoding error. *)
Theorem C2_non_mapping_entry_raises :
  count_passing_tests (world_with_features (JList [JInt 1])) proj = Raise AttributeError /\
  count_passing_tests (world_with_features (JInt 5)) proj = Raise TypeError /\
  count_passing_tests (world_with_bad_features UnicodeDecodeError) proj
  = Raise UnicodeDecodeError /\
  print_progress_summary (world_with_features (JList [JInt 1])) proj EmptyString
  = (Raise AttributeError, EmptyString).
Proof. repeat split. Qed.

(** C4.  A feature list that parses as an array of [N] records gives
    [(K, N)], [K] being the number of records whose [passes] field is
    present and truthy; a record without the key, or with a falsy value
    under it, is not counted. *)
Theorem C4_count_records
  (w : world) (project_dir : path) (f : text_file)
  (entries : list (list (string * value))) :
  path_exists w (tests_file project_dir) = true ->
  open_text w (tests_file project_dir) = Ok f ->
  json_load w f = Ok (JList (map JDict entries)) ->
  count_passing_tests w project_dir =
    Ok (Z.of_nat (List.length (filter entry_passes entries)),
        Z.of_nat (List.length entries)) /\
  (forall kvs, dict_lookup "passes" kvs = None -> entry_passes kvs = false) /\
  (forall kvs v, dict_lookup "passes" kvs = Some v ->
     entry_passes kvs = truthy v) /\
  Forall (fun v => truthy v = false)
    [JBool false; JNone; JInt 0; JFloat (S754_zero false); JFloat (S754_zero true);
     JStr EmptyString; JList []; JDict []].
Proof.
  intros He Ho Hl; split; [exact (count_records w project_dir f entries He Ho Hl)|].
  split; [|split].
  - intros kvs H; unfold entry_passes; now rewrite H.
  - intros kvs v H; unfold entry_passes; now rewrite H.
  - repeat constructor.
Qed.

Lemma C4_witness :
  count_passing_tests (world_with_features scenario_features) proj = Ok (1, 3).
Proof.
  apply (proj1 (C4_count_records
                  (world_with_features scenario_features) proj (TextFile feature_path)
                  [[("passes", JBool true)]; [("passes", JBool false)]; []]
                  eq_refl eq_refl eq_refl)).
Defined.

(** C10.  Whenever [count_passing_tests] returns a pair, it satisfies
    [0 <= passing <= total]. *)
Theorem C10_count_invariant (w : world) (project_dir : path) (passing total : Z) :
  count_passing_tests w project_dir = Ok (passing, total) ->
  0 <= passing <= total.
Proof. apply count_bounds. Qed.

Lemma C10_witness : 0 <= 1 <= 3.
Proof.
  apply (C10_count_invariant (world_with_features scenario_features) proj 1 3).
  reflexivity.
Defined.

(** ** Session header *)

Section SessionHeader.

Lemma append_assoc (a b c : string) : (a ++ b) ++ c = a ++ b ++ c.
Proof. induction a as [|x a IH]; simpl; congruence. Qed.

Lemma append_length (a b : string) :
  String.length (a ++ b) = (String.length a + String.length b)%nat.
Proof. induction a as [|x a IH]; simpl; congruence. Qed.

Lemma append_inv_tail (a b c : string) : a ++ c = b ++ c -> a = b.
Proof.
  revert b; induction a as [|x a IH]; intros [|y b] H; simpl in H.
  - reflexivity.
  - apply (f_equal String.length) in H; simpl in H.
    rewrite append_length in H; lia.
  - apply (f_equal String.length) in H; simpl in H.
    rewrite append_length in H; lia.
  - injection H as -> H; f_equal; auto.
Qed.

Lemma str_repeat_length (c : ascii) (n : nat) : String.length (str_repeat c n) = n.
Proof. induction n; simpl; congruence. Qed.

Lemma print_session_header_out (session_num : Z) (is_initializer : bool) (out : string) :
  print_session_header session_num is_initializer out =
  (Ok tt,
   out ++ nl ++ rule ++ nl ++
   "  " ++ session_label session_num is_initializer ++ nl ++
   rule ++ nl ++ nl).
Proof.
  unfold print_session_header, io_bind, print, session_label.
  f_equal; rewrite !append_assoc; reflexivity.
Qed.

End SessionHeader.



(** ** Rounding of binary64 operations *)

Section Rounding.

Variables prec emax : Z.

Lemma loc_of_double_low (r D : Z) :
  0 <= r < D -> loc_of r (2 * D) = if r =? 0 then loc_Exact else loc_Inexact Lt.
Proof.
  intros H; unfold loc_of; destruct (r =? 0); [reflexivity|].
  f_equal; apply Z.compare_lt_iff; lia.
Qed.

Lemma loc_of_double_high (r D : Z) :
  0 <= r < D ->
  loc_of (r + D) (2 * D) = if r =? 0 then loc_Inexact Eq else loc_Inexact Gt.
Proof.
  intros H; unfold loc_of.
  destruct (Z.eqb_spec (r + D) 0) as [E|_]; [lia|].
  destruct (Z.eqb_spec r 0) as [->|Hr]; f_equal.
  - apply Z.compare_eq_iff; lia.
  - apply Z.compare_gt_iff; lia.
Qed.

Lemma sticky_of_loc (m : Z) (r s : bool) (r0 D : Z) :
  loc_of_shr_record (Build_shr_record m r s) = loc_of r0 D ->
  r || s = negb (r0 =? 0).
Proof.
  unfold loc_of; destruct r, s, (r0 =? 0); simpl; congruence.
Qed.

Lemma div_mod_double (N D : Z) :
  0 < D -> 0 <= N ->
  N / (2 * D) = (N / D) / 2 /\
  N mod (2 * D) = N mod D + D * ((N / D) mod 2).
Proof.
  intros HD HN; split.
  - rewrite (Z.mul_comm 2 D), Z.div_div; lia.
  - rewrite (Z.mul_comm 2 D), Z.rem_mul_r; lia.
Qed.

(** One step of [shr] halves the quotient. *)
Lemma shr_1_represents (N D : Z) (mrs : shr_record) :
  represents N D mrs -> represents N (2 * D) (shr_1 mrs).
Proof.
  destruct mrs as [m r s]; intros (HD & HN & Hm & Hl); simpl in Hm.
  destruct (div_mod_double N D HD HN) as [Hq Hr].
  pose proof (Z.mod_pos_bound N D HD) as Hb.
  pose proof (Z.div_pos N D HN HD) as Hq0.
  pose proof (sticky_of_loc m r s _ _ Hl) as Hs.
  unfold represents; repeat split; try lia.
  - rewrite Hq, <- Hm; destruct m as [|[p|p|]|p]; try lia; cbn [shr_1 shr_m].
    + reflexivity.
    + rewrite (Pos2Z.inj_xI p), Z.mul_comm, Z.div_add_l by lia; reflexivity.
    + rewrite (Pos2Z.inj_xO p), Z.mul_comm, Z.div_mul by lia; reflexivity.
    + reflexivity.
  - rewrite Hr, <- Hm.
    destruct m as [|[p|p|]|p]; try lia; cbn [shr_1 loc_of_shr_record].
    + change (0 mod 2) with 0; rewrite Z.mul_0_r, Z.add_0_r.
      rewrite loc_of_double_low by lia; rewrite Hs.
      destruct (N mod D =? 0); reflexivity.
    + replace (Z.pos p~1 mod 2) with 1
        by (rewrite (Pos2Z.inj_xI p), Z.add_comm, Z.mul_comm, Z.mod_add by lia; reflexivity).
      rewrite Z.mul_1_r, loc_of_double_high by lia; rewrite Hs.
      destruct (N mod D =? 0); reflexivity.
    + replace (Z.pos p~0 mod 2) with 0
        by (rewrite (Pos2Z.inj_xO p), Z.mul_comm, Z.mod_mul by lia; reflexivity).
      rewrite Z.mul_0_r, Z.add_0_r, loc_of_double_low by lia; rewrite Hs.
      destruct (N mod D =? 0); reflexivity.
    + change (1 mod 2) with 1.
      rewrite Z.mul_1_r, loc_of_double_high by lia; rewrite Hs.
      destruct (N mod D =? 0); reflexivity.
Qed.

Lemma pow2_xO (p : positive) : 2 ^ Z.pos p~0 = 2 ^ Z.pos p * 2 ^ Z.pos p.
Proof. rewrite <- Z.pow_add_r by lia; f_equal; lia. Qed.

Lemma pow2_xI (p : positive) : 2 ^ Z.pos p~1 = 2 * (2 ^ Z.pos p * 2 ^ Z.pos p).
Proof. rewrite <- Z.pow_add_r, <- Z.pow_succ_r by lia; f_equal; lia. Qed.

(** [p] steps divide by [2^p]. *)
Lemma iter_shr_1_represents (N : Z) (p : positive) :
  forall D mrs, represents N D mrs ->
  represents N (D * 2 ^ Zpos p) (iter_pos shr_1 p mrs).
Proof.
  induction p as [p IH|p IH|]; intros D mrs H; cbn [iter_pos].
  - apply shr_1_represents in H; apply IH in H; apply IH in H.
    replace (D * 2 ^ Z.pos p~1) with (2 * D * 2 ^ Z.pos p * 2 ^ Z.pos p); [exact H|].
    rewrite pow2_xI; ring.
  - apply IH in H; apply IH in H.
    replace (D * 2 ^ Z.pos p~0) with (D * 2 ^ Z.pos p * 2 ^ Z.pos p); [exact H|].
    rewrite pow2_xO; ring.
  - apply shr_1_represents in H.
    replace (D * 2 ^ 1) with (2 * D) by lia; exact H.
Qed.

Lemma record_of_loc_represents (N D : Z) :
  0 < D -> 0 <= N ->
  represents N D (shr_record_of_loc (N / D) (loc_of (N mod D) D)).
Proof.
  intros HD HN; unfold represents; repeat split; try assumption.
  - destruct (loc_of (N mod D) D) as [|[]]; reflexivity.
  - destruct (loc_of (N mod D) D) as [|[]]; reflexivity.
Qed.

(** The shift to the exponent that [fexp] asks for. *)
Lemma shr_fexp_represents (N D e : Z) :
  0 < D -> 0 <= N ->
  let e' := Z.max e (fexp prec emax (Zdigits2 (N / D) + e)) in
  represents N (D * 2 ^ (e' - e))
    (fst (shr_fexp prec emax (N / D) e (loc_of (N mod D) D))) /\
  snd (shr_fexp prec emax (N / D) e (loc_of (N mod D) D)) = e'.
Proof.
  intros HD HN e'; unfold shr_fexp, shr.
  pose proof (record_of_loc_represents N D HD HN) as H.
  destruct (fexp prec emax (Zdigits2 (N / D) + e) - e) as [|k|k] eqn:Ek;
    cbn [fst snd].
  - replace (e' - e) with 0 by lia; rewrite Z.mul_1_r; split; [exact H | lia].
  - replace (e' - e) with (Z.pos k) by lia; split;
      [now apply iter_shr_1_represents | lia].
  - replace (e' - e) with 0 by lia; rewrite Z.mul_1_r; split; [exact H | lia].
Qed.

Lemma round_nearest_even_represents (N D : Z) (mrs : shr_record) :
  represents N D mrs ->
  round_nearest_even (shr_m mrs) (loc_of_shr_record mrs) = Float.round_half_even N D.
Proof.
  intros (HD & HN & -> & ->); unfold loc_of, Float.round_half_even, round_nearest_even.
  destruct (Z.eqb_spec (N mod D) 0) as [->|Hr].
  - replace (2 * 0 ?= D) with Lt by (symmetry; apply Z.compare_lt_iff; lia).
    reflexivity.
  - destruct (2 * (N mod D) ?= D); reflexivity.
Qed.

Lemma round_half_even_nonneg (N D : Z) :
  0 < D -> 0 <= N -> 0 <= Float.round_half_even N D.
Proof.
  intros HD HN; unfold Float.round_half_even.
  pose proof (Z.div_pos N D HN HD).
  destruct (2 * (N mod D) ?= D); [destruct (Z.even _)| |]; lia.
Qed.

(** [binary_round_aux] computes [round_model]. *)
Lemma binary_round_aux_model (sx : bool) (N D ex : Z) :
  0 < D -> 0 <= N ->
  binary_round_aux prec emax sx (N / D) ex (loc_of (N mod D) D)
  = round_model prec emax sx N D ex.
Proof.
  intros HD HN; unfold binary_round_aux, round_model.
  destruct (shr_fexp_represents N D ex HD HN) as [H1 He1].
  destruct (shr_fexp prec emax (N / D) ex (loc_of (N mod D) D)) as [mrs1 e1].
  cbn [fst snd] in H1, He1.
  rewrite (round_nearest_even_represents _ _ _ H1), He1.
  set (e1' := Z.max ex (fexp prec emax (Zdigits2 (N / D) + ex))) in *.
  set (m1 := Float.round_half_even N (D * 2 ^ (e1' - ex))).
  assert (Hm1 : 0 <= m1).
  { apply round_half_even_nonneg; [|assumption].
    apply Z.mul_pos_pos; [assumption|]. apply Z.pow_pos_nonneg; lia. }
  pose proof (shr_fexp_represents m1 1 e1' Z.lt_0_1 Hm1) as H2.
  rewrite Z.div_1_r, Z.mod_1_r in H2.
  change (loc_of 0 1) with loc_Exact in H2.
  destruct H2 as [(_ & _ & H2 & _) He2].
  destruct (shr_fexp prec emax m1 e1' loc_Exact) as [mrs2 e2].
  cbn [fst snd] in H2, He2.
  rewrite H2, He2, Z.mul_1_l; reflexivity.
Qed.

End Rounding.

(** ** Digits and the rounding error *)

Section Digits.

Lemma digits2_pos_bounds (p : positive) :
  2 ^ (Zpos (digits2_pos p) - 1) <= Zpos p < 2 ^ Zpos (digits2_pos p).
Proof.
  induction p as [p IH|p IH|]; cbn [digits2_pos].
  - rewrite Pos2Z.inj_succ, (Pos2Z.inj_xI p).
    replace (Z.succ (Z.pos (digits2_pos p)) - 1)
      with (Z.succ (Z.pos (digits2_pos p) - 1)) by lia.
    rewrite !Z.pow_succ_r by lia.
    revert IH; generalize (2 ^ (Z.pos (digits2_pos p) - 1)) (2 ^ Z.pos (digits2_pos p)).
    intros; lia.
  - rewrite Pos2Z.inj_succ, (Pos2Z.inj_xO p).
    replace (Z.succ (Z.pos (digits2_pos p)) - 1)
      with (Z.succ (Z.pos (digits2_pos p) - 1)) by lia.
    rewrite !Z.pow_succ_r by lia.
    revert IH; generalize (2 ^ (Z.pos (digits2_pos p) - 1)) (2 ^ Z.pos (digits2_pos p)).
    intros; lia.
  - simpl; lia.
Qed.

Lemma Zdigits2_bounds (m : Z) :
  0 < m -> 2 ^ (Zdigits2 m - 1) <= m < 2 ^ Zdigits2 m.
Proof. destruct m as [|p|p]; try lia; intros _; apply digits2_pos_bounds. Qed.

Lemma Zdigits2_nonneg (m : Z) : 0 <= Zdigits2 m.
Proof. destruct m; simpl; lia. Qed.

Lemma Zdigits2_pos (m : Z) : 0 < m -> 0 < Zdigits2 m.
Proof. destruct m; simpl; lia. Qed.

(** The number of digits of [m] is the [k] with [2^(k-1) <= m < 2^k]. *)
Lemma Zdigits2_unique (m k : Z) :
  2 ^ (k - 1) <= m < 2 ^ k -> 0 < k -> Zdigits2 m = k.
Proof.
  intros [Hlo Hhi] Hk.
  assert (Hm : 0 < m) by (pose proof (Z.pow_pos_nonneg 2 (k - 1)); lia).
  destruct (Zdigits2_bounds m Hm) as [Hlo' Hhi'].
  pose proof (Zdigits2_pos m Hm) as Hd.
  destruct (Z.lt_trichotomy (Zdigits2 m) k) as [H|[H|H]]; [|exact H|].
  - assert (2 ^ Zdigits2 m <= 2 ^ (k - 1)) by (apply Z.pow_le_mono_r; lia). lia.
  - assert (2 ^ k <= 2 ^ (Zdigits2 m - 1)) by (apply Z.pow_le_mono_r; lia). lia.
Qed.

Lemma Zdigits2_le (m k : Z) : 0 <= m < 2 ^ k -> 0 <= k -> Zdigits2 m <= k.
Proof.
  intros [Hlo Hhi] Hk.
  destruct (Z.eq_dec m 0) as [->|Hm]; [simpl; lia|].
  destruct (Zdigits2_bounds m ltac:(lia)) as [Hlo' _].
  destruct (Z_le_gt_dec (Zdigits2 m) k) as [H|H]; [exact H|].
  assert (2 ^ k <= 2 ^ (Zdigits2 m - 1)) by (apply Z.pow_le_mono_r; lia). lia.
Qed.

(** Rounding to nearest moves a quotient by at most one half. *)
Lemma round_half_even_error (N D : Z) :
  0 < D -> 0 <= N ->
  2 * Z.abs (Float.round_half_even N D * D - N) <= D.
Proof.
  intros HD HN; unfold Float.round_half_even.
  pose proof (Z.div_mod N D ltac:(lia)) as E.
  pose proof (Z.mod_pos_bound N D HD) as Hb.
  destruct (Z.compare_spec (2 * (N mod D)) D) as [Hc|Hc|Hc];
    [destruct (Z.even (N / D))| |]; nia.
Qed.

Lemma round_half_even_floor (N D : Z) :
  0 < D -> 0 <= N ->
  N / D <= Float.round_half_even N D <= N / D + 1.
Proof.
  intros HD HN; unfold Float.round_half_even.
  destruct (2 * (N mod D) ?= D); [destruct (Z.even _)| |]; lia.
Qed.

Lemma new_location_loc_of (d r : Z) :
  0 < d -> 0 <= r < d -> new_location d r = loc_of r d.
Proof.
  intros Hd Hr; unfold new_location, new_location_even, new_location_odd, loc_of.
  destruct (Z.even d) eqn:Ev; [reflexivity|].
  destruct (r =? 0); [reflexivity|]; f_equal.
  assert (Hodd : Z.odd d = true) by (rewrite <- Z.negb_even, Ev; reflexivity).
  apply Z.odd_spec in Hodd as [k Hk].
  destruct (Z.compare_spec (2 * r + 1) d) as [Hc|Hc|Hc]; symmetry.
  - apply Z.compare_lt_iff; lia.
  - apply Z.compare_lt_iff; lia.
  - apply Z.compare_gt_iff; lia.
Qed.

End Digits.

(** ** The quotient of two integers *)

Section TrueDiv.

Lemma div_shift_range (p t : Z) : 0 <= div_shift p t <= 1074.
Proof. unfold div_shift, fexp, emin, Float.prec, Float.emax; lia. Qed.

(** The quotient of two positive integers is one rounding of the exact
    quotient. *)
Lemma SFdiv_of_int_model (p t : Z) :
  0 < p -> 0 < t ->
  SFdiv Float.prec Float.emax (Float.of_int p) (Float.of_int t)
  = round_model Float.prec Float.emax false
      (p * 2 ^ div_shift p t) t (- div_shift p t).
Proof.
  intros Hp Ht.
  pose proof (div_shift_range p t) as Hs.
  destruct p as [|p|p]; try lia; destruct t as [|t|t]; try lia.
  cbn [Float.of_int SFdiv xorb]; unfold SFdiv_core_binary.
  rewrite !Z.add_0_r, Z.sub_diag.
  assert (He : Z.min (fexp Float.prec Float.emax
                        (Zdigits2 (Z.pos p) - Zdigits2 (Z.pos t))) 0
               = - div_shift (Z.pos p) (Z.pos t)) by (unfold div_shift; lia).
  change IntDef.Z.min with Z.min; change IntDef.Z.shiftl with Z.shiftl.
  change IntDef.Z.div_eucl with Z.div_eucl.
  rewrite He.
  set (s := div_shift (Z.pos p) (Z.pos t)) in *.
  replace (0 - - s) with s by lia.
  assert (Hm : match s with
               | 0 => Z.pos p
               | Z.pos _ => Z.shiftl (Z.pos p) s
               | Z.neg _ => 0
               end = Z.pos p * 2 ^ s).
  { destruct s as [|k|k] eqn:Es; [simpl; lia | | lia].
    apply Z.shiftl_mul_pow2; lia. }
  rewrite Hm.
  assert (HN : 0 <= Z.pos p * 2 ^ s) by (pose proof (Z.pow_pos_nonneg 2 s); nia).
  pose proof (Z.mod_pos_bound (Z.pos p * 2 ^ s) (Z.pos t) ltac:(lia)) as Hr.
  unfold Z.modulo, Z.div in *.
  pose proof (binary_round_aux_model Float.prec Float.emax false
                (Z.pos p * 2 ^ s) (Z.pos t) (- s) ltac:(lia) HN) as Hmodel.
  unfold Z.modulo, Z.div in Hmodel.
  destruct (Z.div_eucl (Z.pos p * 2 ^ s) (Z.pos t)) as [q r].
  rewrite new_location_loc_of by lia.
  exact Hmodel.
Qed.

(** A rounded quotient at most one has a small exponent: it is not an
    infinity. *)
Lemma round_model_le_one (N D s : Z) :
  0 < D -> 0 <= N <= D * 2 ^ s -> 0 <= s ->
  forall sx, round_model Float.prec Float.emax false N D (- s) <> S754_infinity sx.
Proof.
  intros HD HN Hs sx; unfold round_model.
  set (e1 := Z.max (- s) (fexp Float.prec Float.emax (Zdigits2 (N / D) + - s))).
  set (m1 := Float.round_half_even N (D * 2 ^ (e1 - - s))).
  set (e2 := Z.max e1 (fexp Float.prec Float.emax (Zdigits2 m1 + e1))).
  assert (Hpow : 0 < 2 ^ s) by (apply Z.pow_pos_nonneg; lia).
  assert (Hq : 0 <= N / D <= 2 ^ s).
  { split; [apply Z.div_pos; lia|].
    apply Z.div_le_upper_bound; [lia|]. lia. }
  assert (Hdq : Zdigits2 (N / D) <= s + 1).
  { apply Zdigits2_le; [|lia].
    rewrite Z.pow_add_r, Z.pow_1_r by lia; lia. }
  assert (He1 : - s <= e1 <= 0).
  { unfold e1, fexp, emin, Float.prec, Float.emax; lia. }
  assert (Hk : 0 < 2 ^ (e1 - - s)) by (apply Z.pow_pos_nonneg; lia).
  assert (Hshift : 2 ^ s = 2 ^ (- e1) * 2 ^ (e1 - - s)).
  { rewrite <- Z.pow_add_r by lia; f_equal; lia. }
  assert (Hm1 : 0 <= m1 <= 2 ^ (- e1) + 1).
  { unfold m1.
    pose proof (round_half_even_floor N (D * 2 ^ (e1 - - s)) ltac:(nia) ltac:(lia)) as Hf.
    assert (N / (D * 2 ^ (e1 - - s)) <= 2 ^ (- e1)).
    { apply Z.div_le_upper_bound; [nia|].
      rewrite Hshift in HN; nia. }
    assert (0 <= N / (D * 2 ^ (e1 - - s))) by (apply Z.div_pos; nia).
    lia. }
  assert (Hdm : Zdigits2 m1 <= - e1 + 2).
  { apply Zdigits2_le; [|lia].
    assert (0 < 2 ^ (- e1)) by (apply Z.pow_pos_nonneg; lia).
    replace (- e1 + 2) with (Z.succ (Z.succ (- e1))) by lia.
    rewrite !Z.pow_succ_r by lia. lia. }
  assert (He2 : e2 <= Float.emax - Float.prec).
  { unfold e2, fexp, emin, Float.prec, Float.emax in *; lia. }
  destruct (m1 / 2 ^ (e2 - e1)); try discriminate.
  apply Z.leb_le in He2; rewrite He2; discriminate.
Qed.

(** The quotient [passing / total] of a count never raises. *)
Lemma int_truediv_ok (p t : Z) :
  0 <= p <= t -> 0 < t -> exists q, Float.int_truediv p t = Ok q.
Proof.
  intros Hp Ht; unfold Float.int_truediv.
  destruct (Z.eqb_spec t 0) as [->|_]; [lia|].
  destruct (Z.eq_dec p 0) as [->|Hp0].
  - destruct t; try lia; cbn; eauto.
  - pose proof (div_shift_range p t) as Hs.
    rewrite SFdiv_of_int_model by lia.
    pose proof (round_model_le_one (p * 2 ^ div_shift p t) t (div_shift p t)) as Hno.
    assert (Hpow : 0 < 2 ^ div_shift p t) by (apply Z.pow_pos_nonneg; lia).
    specialize (Hno Ht ltac:(nia) ltac:(lia)).
    destruct (round_model _ _ _ _ _ _) as [sz|sz| |sz m e]; eauto.
    now destruct (Hno sz).
Qed.

End TrueDiv.

(** ** Progress summary *)

Section ProgressSummary.

Variable w : world.
Variable project_dir : path.

(** What is printed, given the results of the two queries. *)
Lemma print_progress_summary_out (passing total : Z) (status out : string) :
  count_passing_tests w project_dir = Ok (passing, total) ->
  get_regression_status w project_dir = Ok status ->
  print_progress_summary w project_dir out =
  if total >? 0 then
    match Float.int_truediv passing total with
    | Ok q =>
        (Ok tt,
         out ++
         progress_line passing total
           (Float.format_f 1 (Float.mul q (Float.float_of_int 100))) ++ nl ++
         status_line status ++ nl)
    | Raise e => (Raise e, out)
    end
  else
    (Ok tt, out ++ not_created_line ++ nl ++ status_line status ++ nl).
Proof.
  intros Hc Hs; unfold print_progress_summary, io_bind, lift.
  rewrite Hc, Hs.
  destruct (total >? 0).
  - destruct (Float.int_truediv passing total) as [q|e]; [|reflexivity].
    unfold print, progress_line, status_line; f_equal.
    rewrite !append_assoc; reflexivity.
  - unfold print, not_created_line, status_line; f_equal.
    rewrite !append_assoc; reflexivity.
Qed.

(** An exception of the count leaves the summary before anything is
    printed. *)
Lemma print_progress_summary_raises (e : exc) (out : string) :
  count_passing_tests w project_dir = Raise e ->
  print_progress_summary w project_dir out = (Raise e, out).
Proof.
  intros Hc; unfold print_progress_summary, io_bind, lift; now rewrite Hc.
Qed.

Lemma no_percent_sign (status : string) :
  In status the_statuses ->
  str_in "%" (not_created_line ++ nl ++ status_line status ++ nl) = false.
Proof.
  intros H; repeat (destruct H as [<-|H]; [reflexivity|]); destruct H.
Qed.

End ProgressSummary.





(** ** Accuracy of the percentage *)

Section Accuracy.

Lemma fexp64 (x : Z) : fexp Float.prec Float.emax x = Z.max (x - 53) (-1074).
Proof. reflexivity. Qed.

Lemma round_half_even_le (N D K : Z) :
  0 < D -> 0 <= N -> N <= K * D -> Float.round_half_even N D <= K.
Proof.
  intros HD HN HK; unfold Float.round_half_even.
  pose proof (Z.div_mod N D ltac:(lia)) as E.
  pose proof (Z.mod_pos_bound N D HD) as Hb.
  assert (N / D <= K) by nia.
  destruct (Z.eq_dec (N / D) K) as [Hq|Hq].
  - assert (N mod D = 0) by nia.
    replace (2 * (N mod D) ?= D) with Lt; [lia|].
    symmetry; apply Z.compare_lt_iff; lia.
  - destruct (2 * (N mod D) ?= D); [destruct (Z.even _)| |]; lia.
Qed.

(** In the normal range the rounded quotient has a 53-bit mantissa, and its
    value is the quotient rounded at the exponent [digits + ex - 53]. *)
Lemma round_model_normal (sx : bool) (N D ex : Z) :
  0 < D -> 0 <= N ->
  53 <= Zdigits2 (N / D) ->
  -1074 <= Zdigits2 (N / D) + ex - 53 ->
  Zdigits2 (N / D) + ex <= 1023 ->
  exists m e,
    round_model Float.prec Float.emax sx N D ex = S754_finite sx m e /\
    Zdigits2 (N / D) + ex - 53 <= e <= Zdigits2 (N / D) + ex - 52 /\
    Zpos m * 2 ^ (e - (Zdigits2 (N / D) + ex - 53))
      = Float.round_half_even N (D * 2 ^ (Zdigits2 (N / D) - 53)) /\
    2 ^ 52 <= Zpos m < 2 ^ 53.
Proof.
  intros HD HN Hdg Hlo Hhi; unfold round_model.
  set (dg := Zdigits2 (N / D)) in *.
  rewrite !fexp64.
  replace (Z.max ex (Z.max (dg + ex - 53) (-1074))) with (dg + ex - 53) by lia.
  replace (dg + ex - 53 - ex) with (dg - 53) by lia.
  set (e1 := dg + ex - 53).
  set (m1 := Float.round_half_even N (D * 2 ^ (dg - 53))).
  assert (Hk : 0 < 2 ^ (dg - 53)) by (apply Z.pow_pos_nonneg; lia).
  assert (Hq : 0 < N / D).
  { destruct (Z.eq_dec (N / D) 0) as [E|E].
    - unfold dg in Hdg; rewrite E in Hdg; simpl in Hdg; lia.
    - pose proof (Z.div_pos N D HN HD); lia. }
  destruct (Zdigits2_bounds (N / D) Hq) as [Hqlo Hqhi]; fold dg in Hqlo, Hqhi.
  assert (Hfloor : 2 ^ 52 <= N / (D * 2 ^ (dg - 53)) < 2 ^ 53).
  { rewrite <- Z.div_div by lia.
    assert (E1 : 2 ^ (dg - 1) = 2 ^ 52 * 2 ^ (dg - 53))
      by (rewrite <- Z.pow_add_r by lia; f_equal; lia).
    assert (E2 : 2 ^ dg = 2 ^ 53 * 2 ^ (dg - 53))
      by (rewrite <- Z.pow_add_r by lia; f_equal; lia).
    rewrite E1 in Hqlo; rewrite E2 in Hqhi.
    split.
    - apply Z.div_le_lower_bound; lia.
    - apply Z.div_lt_upper_bound; lia. }
  pose proof (round_half_even_floor N (D * 2 ^ (dg - 53)) ltac:(nia) HN) as Hm1.
  fold m1 in Hm1.
  destruct (Z_lt_le_dec m1 (2 ^ 53)) as [Hlt|Hge].
  - assert (Hd1 : Zdigits2 m1 = 53) by (apply Zdigits2_unique; simpl; lia).
    rewrite Hd1.
    replace (Z.max e1 (Z.max (53 + e1 - 53) (-1074))) with e1 by lia.
    rewrite Z.sub_diag, Z.pow_0_r, Z.div_1_r.
    destruct m1 as [|m|m] eqn:Em; try lia.
    replace (e1 <=? Float.emax - Float.prec) with true
      by (symmetry; apply Z.leb_le; unfold Float.emax, Float.prec; lia).
    exists m, e1; repeat split; try lia.
    rewrite Z.sub_diag, Z.pow_0_r; lia.
  - assert (Em : m1 = 2 ^ 53) by lia.
    rewrite Em.
    change (Zdigits2 (2 ^ 53)) with 54.
    replace (Z.max e1 (Z.max (54 + e1 - 53) (-1074))) with (e1 + 1) by lia.
    replace (e1 + 1 - e1) with 1 by lia.
    change (2 ^ 53 / 2 ^ 1) with (Z.pos (4503599627370496)).
    replace (e1 + 1 <=? Float.emax - Float.prec) with true
      by (symmetry; apply Z.leb_le; unfold Float.emax, Float.prec; lia).
    exists 4503599627370496%positive, (e1 + 1); repeat split; try lia.
    replace (e1 + 1 - e1) with 1 by lia; reflexivity.
Qed.

(** The quotient of a count by a total below [2^40], as a mantissa and an
    exponent: it is at most one and within [2^-53] of the exact quotient. *)
Lemma int_truediv_accurate (p t : Z) :
  1 <= p <= t -> t < 2 ^ 40 ->
  exists m e,
    Float.int_truediv p t = Ok (S754_finite false m e) /\
    -92 <= e <= -52 /\
    2 ^ 52 <= Zpos m < 2 ^ 53 /\
    Z.abs (Zpos m * 2 ^ (e + 92) * t - p * 2 ^ 92) <= 2 ^ 39 * t.
Proof.
  intros Hp Ht.
  set (d1 := Zdigits2 p); set (d2 := Zdigits2 t).
  destruct (Zdigits2_bounds p ltac:(lia)) as [Hplo Hphi]; fold d1 in Hplo, Hphi.
  destruct (Zdigits2_bounds t ltac:(lia)) as [Htlo Hthi]; fold d2 in Htlo, Hthi.
  assert (Hd1 : 1 <= d1) by (pose proof (Zdigits2_pos p); unfold d1; lia).
  assert (Hd12 : d1 <= d2).
  { apply Zdigits2_le; [lia|]. pose proof (Zdigits2_pos t); unfold d2; lia. }
  assert (Hd2 : d2 <= 40) by (apply Zdigits2_le; lia).
  assert (Hs : div_shift p t = 53 + d2 - d1)
    by (unfold div_shift; rewrite fexp64; fold d1 d2; lia).
  set (s := div_shift p t) in *.
  set (N := p * 2 ^ s).
  set (a := 2 ^ (d1 - 1)) in *; set (b := 2 ^ (d2 - 1)) in *.
  assert (Ha : 2 ^ d1 = 2 * a)
    by (unfold a; rewrite <- Z.pow_succ_r by lia; f_equal; lia).
  assert (Hb : 2 ^ d2 = 2 * b)
    by (unfold b; rewrite <- Z.pow_succ_r by lia; f_equal; lia).
  assert (Hab : 2 ^ s * a = 2 ^ 53 * b).
  { unfold a, b; rewrite <- !Z.pow_add_r by lia; f_equal; lia. }
  assert (Hpow : 0 < 2 ^ s) by (apply Z.pow_pos_nonneg; lia).
  assert (Ha0 : 0 < a) by (apply Z.pow_pos_nonneg; lia).
  assert (Hb0 : 0 < b) by (apply Z.pow_pos_nonneg; lia).
  rewrite Ha in Hphi; rewrite Hb in Hthi.
  assert (HN : 0 <= N) by (unfold N; nia).
  assert (HNlo : t * 2 ^ 52 <= N) by (unfold N; nia).
  assert (HNhi : N < t * 2 ^ 54) by (unfold N; nia).
  assert (Hq : 2 ^ 52 <= N / t < 2 ^ 54).
  { split; [apply Z.div_le_lower_bound | apply Z.div_lt_upper_bound]; lia. }
  set (dg := Zdigits2 (N / t)).
  assert (Hdg : 53 <= dg <= 54).
  { destruct (Z_lt_le_dec (N / t) (2 ^ 53)).
    - replace dg with 53; [lia|]. symmetry; apply Zdigits2_unique; simpl; lia.
    - replace dg with 54; [lia|]. symmetry; apply Zdigits2_unique; simpl; lia. }
  destruct (round_model_normal false N t (- s) ltac:(lia) HN)
    as (m & e & Hr & He & Hm & Hmb); fold dg; try lia.
  fold dg in He, Hm.
  set (e1 := dg + - s - 53) in *.
  set (k := 2 ^ (dg - 53)) in *.
  assert (Hk : 0 < k) by (apply Z.pow_pos_nonneg; lia).
  set (m1 := Float.round_half_even N (t * k)) in *.
  assert (He1 : -92 <= e1 <= -52) by (unfold e1; lia).
  assert (Hks : 2 ^ (- e1) * k = 2 ^ s).
  { unfold k; rewrite <- Z.pow_add_r by lia; f_equal; unfold e1; lia. }
  assert (Hm1 : m1 <= 2 ^ (- e1)).
  { apply round_half_even_le; [nia | exact HN |]. unfold N; nia. }
  assert (Hele : e <= -52).
  { destruct (Z.eq_dec e e1) as [->|Hne]; [lia|].
    replace (e - e1) with 1 in Hm by lia.
    assert (2 ^ 53 <= 2 ^ (- e1)) by lia.
    apply Z.pow_le_mono_r_iff in H; lia. }
  exists m, e; split; [|split; [lia|split; [exact Hmb|]]].
  - unfold Float.int_truediv.
    destruct (Z.eqb_spec t 0) as [E|_]; [lia|].
    rewrite SFdiv_of_int_model by lia; fold s N; now rewrite Hr.
  - pose proof (round_half_even_error N (t * k) ltac:(nia) HN) as Herr.
    fold m1 in Herr.
    set (c := 2 ^ (92 - s)).
    assert (Hc : 0 < c) by (apply Z.pow_pos_nonneg; lia).
    assert (E1 : 2 ^ (e + 92) * 2 ^ (e - e1 - (e - e1)) = 2 ^ (e + 92))
      by (rewrite Z.sub_diag, Z.pow_0_r; lia).
    assert (E2 : Z.pos m * 2 ^ (e + 92) = m1 * (k * c)).
    { rewrite <- Hm.
      replace (k * c) with (2 ^ (e1 + 92))
        by (unfold k, c; rewrite <- Z.pow_add_r by lia; f_equal; unfold e1; lia).
      rewrite <- Z.mul_assoc, <- Z.pow_add_r by lia.
      do 2 f_equal; lia. }
    assert (E3 : p * 2 ^ 92 = N * c).
    { unfold N, c; rewrite <- Z.mul_assoc, <- Z.pow_add_r by lia.
      do 2 f_equal; lia. }
    assert (E4 : k * c <= 2 ^ 40).
    { replace (k * c) with (2 ^ (e1 + 92))
        by (unfold k, c; rewrite <- Z.pow_add_r by lia; f_equal; unfold e1; lia).
      apply Z.pow_le_mono_r; lia. }
    rewrite E2, E3.
    replace (m1 * (k * c) * t - N * c) with (c * (m1 * (t * k) - N)) by ring.
    rewrite Z.abs_mul, (Z.abs_eq c) by lia.
    change (2 ^ 39) with 549755813888; change (2 ^ 40) with 1099511627776 in E4.
    nia.
Qed.

(** The product by 100 is within [2^-46] of the exact product. *)
Lemma mul_100_accurate (m : positive) (e : Z) :
  2 ^ 52 <= Zpos m < 2 ^ 53 -> -92 <= e <= -52 ->
  exists m' e',
    Float.mul (S754_finite false m e) (Float.float_of_int 100)
      = S754_finite false m' e' /\
    -86 <= e' <= -44 /\
    Z.abs (Zpos m' * 2 ^ (e' + 92) - 100 * Zpos m * 2 ^ (e + 92)) <= 2 ^ 46.
Proof.
  intros Hm He.
  change (Float.float_of_int 100) with (S754_finite false 7036874417766400 (-46)).
  unfold Float.mul; cbn [SFmul xorb].
  set (N := Z.pos (m * 7036874417766400)).
  assert (EN : N = 100 * Z.pos m * 2 ^ 46) by (unfold N; rewrite Pos2Z.inj_mul; lia).
  assert (HN : 2 ^ 104 <= N < 2 ^ 106) by (rewrite EN; simpl in *; lia).
  pose proof (binary_round_aux_model Float.prec Float.emax false N 1 (e + -46)
                ltac:(lia) ltac:(lia)) as Hmodel.
  rewrite Z.div_1_r, Z.mod_1_r in Hmodel.
  change (loc_of 0 1) with loc_Exact in Hmodel.
  rewrite Hmodel; clear Hmodel.
  set (dg := Zdigits2 (N / 1)).
  assert (Hdg : 105 <= dg <= 106).
  { unfold dg; rewrite Z.div_1_r.
    destruct (Z_lt_le_dec N (2 ^ 105)).
    - replace (Zdigits2 N) with 105; [lia|]. symmetry; apply Zdigits2_unique; simpl; lia.
    - replace (Zdigits2 N) with 106; [lia|]. symmetry; apply Zdigits2_unique; simpl; lia. }
  destruct (round_model_normal false N 1 (e + -46) ltac:(lia) ltac:(lia))
    as (m' & e' & Hr & He' & Hm' & _); fold dg; try lia.
  fold dg in He', Hm'.
  rewrite Z.mul_1_l in Hm'.
  set (e1 := dg + (e + -46) - 53) in *.
  set (m1 := Float.round_half_even N (2 ^ (dg - 53))) in *.
  exists m', e'; split; [exact Hr|]; split; [unfold e1 in He'; lia|].
  assert (Hk : 0 < 2 ^ (dg - 53)) by (apply Z.pow_pos_nonneg; lia).
  pose proof (round_half_even_error N (2 ^ (dg - 53)) Hk ltac:(lia)) as Herr.
  fold m1 in Herr.
  set (A := 2 ^ (dg - 99)).
  assert (HA : 0 < A) by (apply Z.pow_pos_nonneg; lia).
  assert (EA : 2 ^ (dg - 53) = A * 2 ^ 46)
    by (unfold A; rewrite <- Z.pow_add_r by lia; f_equal; lia).
  set (g := 2 ^ (e + 92)).
  assert (Hg : 0 < g) by (apply Z.pow_pos_nonneg; lia).
  assert (E2 : Z.pos m' * 2 ^ (e' + 92) = m1 * (g * A)).
  { rewrite <- Hm'.
    replace (g * A) with (2 ^ (e1 + 92))
      by (unfold g, A; rewrite <- Z.pow_add_r by lia; f_equal; unfold e1; lia).
    rewrite <- Z.mul_assoc, <- Z.pow_add_r by (unfold e1 in *; lia).
    do 2 f_equal; lia. }
  assert (E4 : g * A <= 2 ^ 47).
  { replace (g * A) with (2 ^ (e1 + 92))
      by (unfold g, A; rewrite <- Z.pow_add_r by lia; f_equal; unfold e1; lia).
    apply Z.pow_le_mono_r; unfold e1; lia. }
  rewrite E2.
  rewrite EA, EN in Herr.
  assert (Herr' : 2 * Z.abs (m1 * A - 100 * Z.pos m) <= A).
  { change (2 ^ 46) with 70368744177664 in Herr; lia. }
  replace (m1 * (g * A) - 100 * Z.pos m * g) with (g * (m1 * A - 100 * Z.pos m)) by ring.
  rewrite Z.abs_mul, (Z.abs_eq g) by lia.
  change (2 ^ 46) with 70368744177664; change (2 ^ 47) with 140737488355328 in E4.
  nia.
Qed.

(** The tenths printed by [.1f] are within one half of ten times the value. *)
Lemma scaled_accurate (m : positive) (e : Z) :
  -92 <= e < 0 ->
  2 * Z.abs (Float.scaled 1 m e * 2 ^ 92 - 10 * Zpos m * 2 ^ (e + 92)) <= 2 ^ 92.
Proof.
  intros He; unfold Float.scaled.
  destruct (Z.leb_spec 0 e) as [H|_]; [lia|].
  change (10 ^ Z.of_nat 1) with 10.
  assert (Hk : 0 < 2 ^ (- e)) by (apply Z.pow_pos_nonneg; lia).
  pose proof (round_half_even_error (Z.pos m * 10) (2 ^ (- e)) Hk ltac:(lia)) as Herr.
  set (T := Float.round_half_even (Z.pos m * 10) (2 ^ (- e))) in *.
  set (g := 2 ^ (e + 92)).
  assert (Hg : 0 < g) by (apply Z.pow_pos_nonneg; lia).
  assert (E : 2 ^ 92 = 2 ^ (- e) * g)
    by (unfold g; rewrite <- Z.pow_add_r by lia; f_equal; lia).
  rewrite E.
  replace (T * (2 ^ (- e) * g) - 10 * Z.pos m * g)
    with (g * (T * 2 ^ (- e) - Z.pos m * 10)) by ring.
  rewrite Z.abs_mul, (Z.abs_eq g) by lia.
  nia.
Qed.

Lemma format_1f_finite (m : positive) (e : Z) :
  Float.format_f 1 (S754_finite false m e) = decimal_1 (Float.scaled 1 m e).
Proof.
  unfold Float.format_f, Float.fixed, decimal_1; cbn [Float.frac_digits].
  change (10 ^ Z.of_nat 1) with 10.
  rewrite Z.mod_mod by lia; reflexivity.
Qed.

(** The printed percentage of [p] out of [t] is a decimal with one
    fractional digit, [T / 10], nearest to [100 * p / t]. *)
Lemma percentage_accurate (p t : Z) :
  0 <= p <= t -> 0 < t < 2 ^ 40 ->
  exists q T,
    Float.int_truediv p t = Ok q /\
    Float.format_f 1 (Float.mul q (Float.float_of_int 100))
      = decimal_1 T /\
    2 * Z.abs (T * t - 1000 * p) <= t.
Proof.
  intros Hp Ht.
  destruct (Z.eq_dec p 0) as [->|Hp0].
  - exists (S754_zero false), 0; repeat split; try (simpl; lia).
    unfold Float.int_truediv.
    destruct (Z.eqb_spec t 0) as [E|_]; [lia|].
    destruct t; try lia; reflexivity.
  - destruct (int_truediv_accurate p t ltac:(lia) ltac:(lia))
      as (m & e & Hq & He & Hm & Hqe).
    destruct (mul_100_accurate m e Hm He) as (m' & e' & Hy & He' & Hye).
    pose proof (scaled_accurate m' e' ltac:(lia)) as HT.
    exists (S754_finite false m e), (Float.scaled 1 m' e').
    split; [exact Hq|]; split; [rewrite Hy; apply format_1f_finite|].
    set (T := Float.scaled 1 m' e') in *.
    set (A := Z.pos m * 2 ^ (e + 92)) in *.
    set (B := Z.pos m' * 2 ^ (e' + 92)) in *.
    replace (100 * Z.pos m * 2 ^ (e + 92)) with (100 * A) in Hye by (unfold A; ring).
    replace (10 * Z.pos m' * 2 ^ (e' + 92)) with (10 * B) in HT by (unfold B; ring).
    change (2 ^ 92) with 4951760157141521099596496896 in *.
    change (2 ^ 46) with 70368744177664 in *.
    change (2 ^ 39) with 549755813888 in *.
    change (2 ^ 40) with 1099511627776 in *.
    assert (Hu : Z.abs (t * (T * 4951760157141521099596496896 - 10 * B))
                 <= t * 2475880078570760549798248448)
      by (rewrite Z.abs_mul, (Z.abs_eq t) by lia; nia).
    assert (Hv : Z.abs (t * (B - 100 * A)) <= t * 70368744177664)
      by (rewrite Z.abs_mul, (Z.abs_eq t) by lia; nia).
    lia.
Qed.

End Accuracy.




(** ** Further properties of the feature count *)

Section CountShape.

Lemma try_except_raise {A : Type} (body : result A) (h : except_clause) (a : A) (e : exc) :
  try_except body h (Ok a) = Raise e -> body = Raise e /\ catches h e = false.
Proof.
  unfold try_except; destruct body as [x|e']; [discriminate|].
  destruct (catches h e') eqn:E; [discriminate|].
  intros H; injection H as <-; auto.
Qed.

(** The generator sum in closed form: it completes exactly on lists of
    mappings. *)
Lemma sum_ones_if_closed (xs : list value) (acc : Z) :
  sum_ones_if passes_cond xs acc =
  if forallb is_record xs
  then Ok (acc + Z.of_nat (List.length (filter passes_value xs)))
  else Raise AttributeError.
Proof.
  revert acc; induction xs as [|x xs IH]; intros acc.
  - simpl; f_equal; lia.
  - destruct x; try reflexivity.
    cbn [sum_ones_if forallb is_record andb filter passes_value].
    rewrite passes_cond_dict; cbn [bind]; rewrite IH.
    destruct (forallb is_record xs); [|reflexivity].
    destruct (entry_passes kvs); cbn [List.length]; f_equal; lia.
Qed.

(** The count of a feature list that parses to a list. *)
Lemma count_loaded_list (w : world) (project_dir : path) (xs : list value) :
  loads w project_dir (JList xs) ->
  count_passing_tests w project_dir =
  if forallb is_record xs
  then Ok (Z.of_nat (List.length (filter passes_value xs)), Z.of_nat (List.length xs))
  else Raise AttributeError.
Proof.
  intros (He & f & Ho & Hl); rewrite (count_loaded w project_dir f _ He Ho Hl).
  cbn [py_len py_iter bind]; rewrite sum_ones_if_closed.
  destruct (forallb is_record xs); reflexivity.
Qed.

Lemma filter_passes_records (entries : list (list (string * value))) :
  List.length (filter passes_value (map JDict entries))
  = List.length (filter entry_passes entries).
Proof.
  induction entries as [|kvs entries IH]; [reflexivity|].
  cbn [map filter passes_value]; destruct (entry_passes kvs); simpl; congruence.
Qed.

Lemma filter_length_le {A : Type} (f : A -> bool) (l : list A) :
  (List.length (filter f l) <= List.length l)%nat.
Proof. induction l as [|x l IH]; simpl; [lia|destruct (f x); simpl; lia]. Qed.

Lemma filter_length_all {A : Type} (f : A -> bool) (l : list A) :
  List.length (filter f l) = List.length l <-> forallb f l = true.
Proof.
  induction l as [|x l IH]; simpl; [tauto|].
  pose proof (filter_length_le f l).
  destruct (f x); simpl; [rewrite <- IH; lia|].
  split; [lia|discriminate].
Qed.

Lemma filter_length_none {A : Type} (f : A -> bool) (l : list A) :
  List.length (filter f l) = 0%nat <-> forallb (fun x => negb (f x)) l = true.
Proof.
  induction l as [|x l IH]; simpl; [tauto|].
  destruct (f x); simpl; [split; [lia|discriminate] | exact IH].
Qed.

End CountShape.

(** X1.  When the feature list exists and [open] or [json.load] raises an
    exception of class [JSONDecodeError] or [OSError] (with their
    subclasses, such as [FileNotFoundError] for a file removed after the
    existence test), the function returns [(0, 0)]. *)
Theorem X1_named_exceptions_swallowed (w : world) (project_dir : path) (e : exc) :
  path_exists w (tests_file project_dir) = true ->
  issubclass e JSONDecodeError = true \/ issubclass e OSError = true ->
  open_text w (tests_file project_dir) = Raise e \/
  (exists f, open_text w (tests_file project_dir) = Ok f /\ json_load w f = Raise e) ->
  count_passing_tests w project_dir = Ok (0, 0).
Proof. apply count_swallows_named. Qed.

Lemma X1_witness :
  count_passing_tests
    (World (fun _ => true) (fun _ => Raise FileNotFoundError)
           (fun _ => Raise FileNotFoundError) (fun _ => Raise OSError)) proj
  = Ok (0, 0).
Proof.
  apply (X1_named_exceptions_swallowed _ proj FileNotFoundError);
    [reflexivity | right; reflexivity | left; reflexivity].
Defined.



(** X3.  For a feature list that parses to a list, the function returns
    exactly when every entry is a mapping, with the number of passing
    entries and the length; one entry of another kind, at any position,
    makes it raise [AttributeError]. *)
Theorem X3_list_returns_iff_records (w : world) (project_dir : path) (xs : list value) :
  loads w project_dir (JList xs) ->
  (forallb is_record xs = true ->
   count_passing_tests w project_dir =
   Ok (Z.of_nat (List.length (filter passes_value xs)), Z.of_nat (List.length xs))) /\
  (forallb is_record xs = false ->
   count_passing_tests w project_dir = Raise AttributeError) /\
  ((exists r, count_passing_tests w project_dir = Ok r) <-> forallb is_record xs = true).
Proof.
  intros Hl; rewrite (count_loaded_list w project_dir xs Hl).
  destruct (forallb is_record xs); repeat split; try congruence; eauto.
  intros [r H]; discriminate H.
Qed.

Lemma X3_witness :
  count_passing_tests
    (world_with_features (JList [JDict [("passes", JBool true)]; JStr "x"; JDict []])) proj
  = Raise AttributeError.
Proof.
  apply (X3_list_returns_iff_records
           (world_with_features (JList [JDict [("passes", JBool true)]; JStr "x"; JDict []]))
           proj [JDict [("passes", JBool true)]; JStr "x"; JDict []]).
  - split; [reflexivity|]. exists (TextFile feature_path); split; reflexivity.
  - reflexivity.
Defined.

(** X4.  For a feature list that parses to something other than a list:
    [null], a boolean or a number raises [TypeError] (no [len]); a non-empty
    object or string raises [AttributeError] (its keys or characters have no
    [get]); an empty object or string gives [(0, 0)]. *)
Theorem X4_top_level_not_a_list (w : world) (project_dir : path) (v : value) :
  loads w project_dir v ->
  match v with
  | JNone | JBool _ | JInt _ | JFloat _ =>
      count_passing_tests w project_dir = Raise TypeError
  | JDict [] | JStr EmptyString =>
      count_passing_tests w project_dir = Ok (0, 0)
  | JDict (_ :: _) | JStr (String _ _) =>
      count_passing_tests w project_dir = Raise AttributeError
  | JList _ => True
  end.
Proof.
  intros (He & f & Ho & Hl); rewrite (count_loaded w project_dir f _ He Ho Hl).
  destruct v as [| | | |s|xs|kvs]; try reflexivity; try exact I.
  - destruct s; reflexivity.
  - destruct kvs as [|[k x] kvs]; reflexivity.
Qed.

Lemma X4_witness :
  count_passing_tests
    (world_with_features (JDict [("features", JList [])])) proj
  = Raise AttributeError.
Proof.
  apply (X4_top_level_not_a_list
           (world_with_features (JDict [("features", JList [])])) proj
           (JDict [("features", JList [])])).
  split; [reflexivity|]. exists (TextFile feature_path); split; reflexivity.
Defined.

(** ** Further properties of the summary and of the status *)

Section SummaryShape.

Lemma int_truediv_zero (t : Z) : 0 < t -> Float.int_truediv 0 t = Ok (S754_zero false).
Proof.
  intros Ht; unfold Float.int_truediv.
  destruct (Z.eqb_spec t 0) as [E|_]; [lia|].
  destruct t; try lia; reflexivity.
Qed.

(** A number divided by itself is the binary64 one. *)
Lemma int_truediv_same (t : Z) :
  0 < t -> Float.int_truediv t t = Ok (S754_finite false 4503599627370496 (-52)).
Proof.
  intros Ht; unfold Float.int_truediv.
  destruct (Z.eqb_spec t 0) as [E|_]; [lia|].
  rewrite SFdiv_of_int_model by lia.
  assert (Hs : div_shift t t = 53)
    by (unfold div_shift; rewrite Z.sub_diag, fexp64; reflexivity).
  rewrite Hs; change (Z.opp 53) with (-53).
  assert (Hq : t * 2 ^ 53 / t = 2 ^ 53) by (rewrite Z.mul_comm; apply Z.div_mul; lia).
  destruct (round_model_normal false (t * 2 ^ 53) t (- 53) Ht ltac:(lia))
    as (m & e & Hr & He & Hm & Hmb); rewrite ?Hq; try (simpl; lia).
  rewrite Hq in He, Hm; change (Zdigits2 (2 ^ 53)) with 54 in He, Hm.
  assert (Hrne : Float.round_half_even (t * 2 ^ 53) (t * 2 ^ (54 - 53)) = 2 ^ 52).
  { unfold Float.round_half_even.
    replace (t * 2 ^ 53) with (2 ^ 52 * (t * 2 ^ (54 - 53)))
      by (change (2 ^ (54 - 53)) with 2; change (2 ^ 53) with (2 ^ 52 * 2); ring).
    rewrite Z.div_mul, Z.mod_mul by (simpl; lia).
    replace (2 * 0 ?= t * 2 ^ (54 - 53)) with Lt; [reflexivity|].
    symmetry; apply Z.compare_lt_iff; simpl; lia. }
  rewrite Hrne in Hm.
  assert (Ee : e = -52).
  { destruct (Z.eq_dec e (-52)) as [E|E]; [exact E|].
    replace e with (-51) in Hm by lia.
    change (2 ^ (-51 - (54 + -53 - 53))) with 2 in Hm; simpl in Hmb; simpl in Hm; lia. }
  subst e; change (2 ^ (-52 - (54 + -53 - 53))) with 1 in Hm.
  assert (Em : m = 4503599627370496%positive) by (simpl in Hm; lia).
  subst m; rewrite Hr; reflexivity.
Qed.

Lemma forallb_perm {A : Type} (f : A -> bool) (l l' : list A) :
  Permutation l l' -> forallb f l = forallb f l'.
Proof.
  induction 1 as [|x l l' _ IH|x y l|l l' l'' _ IH1 _ IH2]; simpl.
  - reflexivity.
  - now rewrite IH.
  - destruct (f x), (f y); reflexivity.
  - congruence.
Qed.

Lemma filter_length_perm {A : Type} (f : A -> bool) (l l' : list A) :
  Permutation l l' -> List.length (filter f l) = List.length (filter f l').
Proof.
  induction 1 as [|x l l' _ IH|x y l|l l' l'' _ IH1 _ IH2]; simpl.
  - reflexivity.
  - destruct (f x); simpl; congruence.
  - destruct (f x), (f y); reflexivity.
  - congruence.
Qed.

End SummaryShape.


(** Two different markers are never equal. *)
Ltac other_marker H :=
  exfalso;
  cbv [passing_status failed_status issues_status read_error_status not_run_status] in H;
  discriminate H.

(** A situation that does not fit the state at hand. *)
Ltac other_state H :=
  exfalso;
  first
    [ discriminate H
    | discriminate (proj1 H)
    | let E := fresh in
      destruct H as (_ & ? & E & ?);
      first [discriminate E | injection E as <-; tauto]
    | let E := fresh in destruct H as (_ & ? & E); discriminate E ].

(** The five equivalences, once the state of the file is known. *)
Ltac marker_cases :=
  repeat match goal with
         | |- _ /\ _ => split
         | |- _ <-> _ => split
         end;
  (let H := fresh in
   intros H;
   first [ reflexivity | other_marker H | solve [eauto 6] | other_state H ]).




(** X8.  Counting is additive: when two feature lists are counted, the list
    made of the entries of the first followed by those of the second gives
    the sums of the passing counts and of the totals. *)
Theorem X8_count_of_concatenation
  (w1 w2 w3 : world) (p1 p2 p3 : path) (xs ys : list value) (a b c d : Z) :
  loads w1 p1 (JList xs) ->
  loads w2 p2 (JList ys) ->
  loads w3 p3 (JList (xs ++ ys)) ->
  count_passing_tests w1 p1 = Ok (a, b) ->
  count_passing_tests w2 p2 = Ok (c, d) ->
  count_passing_tests w3 p3 = Ok (a + c, b + d).
Proof.
  intros H1 H2 H3.
  rewrite (count_loaded_list w1 p1 xs H1), (count_loaded_list w2 p2 ys H2),
    (count_loaded_list w3 p3 (xs ++ ys) H3).
  rewrite forallb_app, filter_app, !length_app.
  destruct (forallb is_record xs); [|discriminate].
  destruct (forallb is_record ys); [|discriminate].
  intros E1 E2; injection E1 as <- <-; injection E2 as <- <-.
  cbn [andb]; f_equal; f_equal; lia.
Qed.

Lemma X8_witness :
  count_passing_tests (world_with_features (features_of 2 1)) proj = Ok (1 + 1, 1 + 2).
Proof.
  apply (X8_count_of_concatenation
           (world_with_features (JList [JDict [("passes", JBool true)]])) 
           (world_with_features (features_of 1 1))
           (world_with_features (features_of 2 1))
           proj proj proj
           [JDict [("passes", JBool true)]]
           [JDict [("passes", JBool true)]; JDict [("passes", JBool false)]]);
    try reflexivity;
    (split; [reflexivity|]; exists (TextFile feature_path); split; reflexivity).
Defined.

(** X9.  The order of the entries does not matter: two feature lists with
    the same entries in a different order give the same result, be it a
    count or the [AttributeError] of an entry that is not a mapping. *)
Theorem X9_count_ignores_order
  (w1 w2 : world) (p1 p2 : path) (xs ys : list value) :
  loads w1 p1 (JList xs) ->
  loads w2 p2 (JList ys) ->
  Permutation xs ys ->
  count_passing_tests w1 p1 = count_passing_tests w2 p2.
Proof.
  intros H1 H2 HP.
  rewrite (count_loaded_list w1 p1 xs H1), (count_loaded_list w2 p2 ys H2).
  now rewrite (forallb_perm is_record xs ys HP),
    (filter_length_perm passes_value xs ys HP), (Permutation_length HP).
Qed.

Lemma X9_witness :
  count_passing_tests
    (world_with_features (JList [JDict []; JDict [("passes", JBool true)]])) proj
  = count_passing_tests
      (world_with_features (JList [JDict [("passes", JBool true)]; JDict []])) proj.
Proof.
  apply (X9_count_ignores_order _ _ proj proj
           [JDict []; JDict [("passes", JBool true)]]
           [JDict [("passes", JBool true)]; JDict []]).
  - split; [reflexivity|]; exists (TextFile feature_path); split; reflexivity.
  - split; [reflexivity|]; exists (TextFile feature_path); split; reflexivity.
  - apply perm_swap.
Defined.

(** X10.  On a list of records the two counts are equal exactly when every
    record passes, and the passing count is zero exactly when none does. *)
Theorem X10_all_or_none_pass
  (w : world) (project_dir : path) (entries : list (list (string * value)))
  (passing total : Z) :
  loads w project_dir (JList (map JDict entries)) ->
  count_passing_tests w project_dir = Ok (passing, total) ->
  (passing = total <-> forallb entry_passes entries = true) /\
  (passing = 0 <-> forallb (fun kvs => negb (entry_passes kvs)) entries = true).
Proof.
  intros (He & f & Ho & Hl).
  rewrite (count_records w project_dir f entries He Ho Hl).
  intros H; injection H as <- <-.
  rewrite <- filter_length_all, <- filter_length_none; lia.
Qed.

Lemma X10_witness :
  (2 = 2 <->
   forallb entry_passes [[("passes", JBool true)]; [("passes", JInt 1)]] = true) /\
  (2 = 0 <->
   forallb (fun kvs => negb (entry_passes kvs))
     [[("passes", JBool true)]; [("passes", JInt 1)]] = true).
Proof.
  apply (X10_all_or_none_pass
           (world_with_features
              (JList (map JDict [[("passes", JBool true)]; [("passes", JInt 1)]])))
           proj [[("passes", JBool true)]; [("passes", JInt 1)]] 2 2).
  - split; [reflexivity|]; exists (TextFile feature_path); split; reflexivity.
  - reflexivity.
Defined.



(** X12.  Truthiness, not the boolean [true], decides: a record whose
    [passes] field is a non-empty string counts as passing, the string
    "false" included. *)
Theorem X12_nonempty_string_passes
  (w : world) (project_dir : path) (entries : list (list (string * value))) :
  loads w project_dir (JList (map JDict entries)) ->
  Forall (fun kvs => exists c s, dict_lookup "passes" kvs = Some (JStr (String c s)))
         entries ->
  count_passing_tests w project_dir =
  Ok (Z.of_nat (List.length entries), Z.of_nat (List.length entries)).
Proof.
  intros (He & f & Ho & Hl) Hall.
  rewrite (count_records w project_dir f entries He Ho Hl).
  do 3 f_equal; apply filter_length_all.
  apply forallb_forall; intros kvs Hin.
  rewrite Forall_forall in Hall.
  destruct (Hall kvs Hin) as (c & s & E).
  unfold entry_passes; rewrite E; reflexivity.
Qed.

Lemma X12_witness :
  count_passing_tests
    (world_with_features (JList (map JDict [[("passes", JStr "false")]]))) proj
  = Ok (1, 1).
Proof.
  apply (X12_nonempty_string_passes
           (world_with_features (JList (map JDict [[("passes", JStr "false")]])))
           proj [[("passes", JStr "false")]]).
  - split; [reflexivity|]; exists (TextFile feature_path); split; reflexivity.
  - repeat constructor. exists "f"%char, "alse"; reflexivity.
Defined.


